(** * payload-lucide-picker: the icon picker field component

    A shallow embedding of [src/fields/component/index.tsx].  The
    component is a React function component; its [useState] cells and the
    host form value become one record of state, its event handlers become
    functions on that record, the module-level [iconCache] becomes an
    explicit store threaded through the calls of [Icon], and the rendered
    JSX becomes a tree of elements. *)

From Stdlib Require Import Floats Uint63 Ascii.
From stdpp Require Import gmap strings list sorting.

Open Scope string_scope.
Set Warnings "-register-all".
Set Default Proof Using "Type".

(** ** JavaScript values held by a configuration object *)

(** A number is an IEEE 754 double, as in JavaScript; [parseInt] and
    [parseFloat] of unparseable text give [nan], which is a number. *)
Inductive jsval :=
  | JUndefined
  | JBool (b : bool)
  | JNumber (x : float)
  | JString (s : string).

(** Truthiness, as tested by [cond ? a : b], [!x] and [a && b]. *)
Definition truthy (v : jsval) : bool :=
  match v with
  | JUndefined => false
  | JBool b => b
  | JNumber x => negb (PrimFloat.is_zero x || PrimFloat.is_nan x)
  | JString s => negb (String.eqb s "")
  end.

(** An object is a finite map from property names to values; reading a
    property that is not there gives [undefined]. *)
Definition get (o : gmap string jsval) (k : string) : jsval :=
  default JUndefined (o !! k).

(** [const DEFAULT_ICON_CONFIG = { name: '', size: 24, color: 'currentColor',
    strokeWidth: 2, absoluteStrokeWidth: false }] *)
Definition DEFAULT_ICON_CONFIG : gmap string jsval :=
  {[ "name" := JString "";
     "size" := JNumber 24;
     "color" := JString "currentColor";
     "strokeWidth" := JNumber 2;
     "absoluteStrokeWidth" := JBool false ]}.

(** The object literal with the five fields of [LucideIconPickerType]. *)
Definition mkConfig (n : string) (sz : float) (col : string) (sw : float)
    (a : bool) : gmap string jsval :=
  {[ "name" := JString n;
     "size" := JNumber sz;
     "color" := JString col;
     "strokeWidth" := JNumber sw;
     "absoluteStrokeWidth" := JBool a ]}.

(** ** Component state *)

(** [hostValue] is what [useField] returns as [value] ([None] for
    [undefined]); the other fields are the [useState] cells in the order of
    the source.  [debouncedSearch] is the cell inside [useDebounce] and
    [timer] the pending [setTimeout] of its effect, with the value it
    captured. *)
Record State := mkState {
  hostValue : option (gmap string jsval);
  fieldIsFocused : bool;
  search : string;
  page : nat;
  hoveredIcon : option string;
  showConfig : bool;
  showResetConfirm : bool;
  debouncedSearch : string;
  timer : option string
}.

(** [const { value = DEFAULT_ICON_CONFIG, setValue } = useField(...)]: the
    default applies when the host value is [undefined]. *)
Definition value (s : State) : gmap string jsval :=
  default DEFAULT_ICON_CONFIG (hostValue s).

Definition setValue (v : gmap string jsval) (s : State) : State :=
  mkState (Some v) (fieldIsFocused s) (search s) (page s) (hoveredIcon s)
    (showConfig s) (showResetConfirm s) (debouncedSearch s) (timer s).

Definition setFieldIsFocused (b : bool) (s : State) : State :=
  mkState (hostValue s) b (search s) (page s) (hoveredIcon s)
    (showConfig s) (showResetConfirm s) (debouncedSearch s) (timer s).

(** [setSearch]: when the text changes, the effect of [useDebounce] runs
    again: its cleanup clears the pending timer and a new one is set that
    captures the new text.  Setting the text it already has is no change of
    state, so the effect does not run. *)
Definition setSearch (x : string) (s : State) : State :=
  if decide (search s = x) then s
  else mkState (hostValue s) (fieldIsFocused s) x (page s) (hoveredIcon s)
         (showConfig s) (showResetConfirm s) (debouncedSearch s) (Some x).

Definition setPage (p : nat) (s : State) : State :=
  mkState (hostValue s) (fieldIsFocused s) (search s) p (hoveredIcon s)
    (showConfig s) (showResetConfirm s) (debouncedSearch s) (timer s).

Definition setHoveredIcon (h : option string) (s : State) : State :=
  mkState (hostValue s) (fieldIsFocused s) (search s) (page s) h
    (showConfig s) (showResetConfirm s) (debouncedSearch s) (timer s).

Definition setShowConfig (b : bool) (s : State) : State :=
  mkState (hostValue s) (fieldIsFocused s) (search s) (page s) (hoveredIcon s)
    b (showResetConfirm s) (debouncedSearch s) (timer s).

Definition setShowResetConfirm (b : bool) (s : State) : State :=
  mkState (hostValue s) (fieldIsFocused s) (search s) (page s) (hoveredIcon s)
    (showConfig s) b (debouncedSearch s) (timer s).

(** The callback of the timer of [useDebounce]: [setDebouncedValue(value)]
    with the captured text.  The result is what is committed and rendered
    next: the debounced text is the new one and the page index is still the
    old one. *)
Definition timerCallback (s : State) : State :=
  match timer s with
  | None => s
  | Some v =>
      mkState (hostValue s) (fieldIsFocused s) (search s) (page s)
        (hoveredIcon s) (showConfig s) (showResetConfirm s) v None
  end.

(** [useEffect(() => { setPage(0) }, [debouncedSearch])], run after the
    commit [after]: the effect runs when [debouncedSearch] is not what it was
    at the commit [before]. *)
Definition pageResetEffect (before after : State) : State :=
  if decide (debouncedSearch before = debouncedSearch after) then after
  else setPage 0 after.

(** The timer of [useDebounce] fires, through to the state in which the
    next input is handled: the commit of the callback, then the effects of
    that commit. *)
Definition timerFires (s : State) : State :=
  pageResetEffect s (timerCallback s).

(** The state after mounting: every cell at its initial value, the host
    value as given, and the first timer of [useDebounce] pending. *)
Definition initialState (hv : option (gmap string jsval)) : State :=
  mkState hv false "" 0 None false false "" (Some "").

(** ** The three writers of the value *)

(** [handleIconSelect]:
    [setValue({...value, name: iconName}); setFieldIsFocused(false); setSearch('')] *)
Definition handleIconSelect (iconName : string) (s : State) : State :=
  setSearch "" (setFieldIsFocused false
    (setValue (<["name" := JString iconName]> (value s)) s)).

(** [handleConfigChange]: [setValue({...value, [field]: newValue})] *)
Definition handleConfigChange (field : string) (newValue : jsval)
    (s : State) : State :=
  setValue (<[field := newValue]> (value s)) s.

(** [handleResetToDefaults]:
    [setValue({...DEFAULT_ICON_CONFIG, name: value.name}); setShowResetConfirm(false)] *)
Definition handleResetToDefaults (s : State) : State :=
  setShowResetConfirm false
    (setValue (<["name" := get (value s) "name"]> DEFAULT_ICON_CONFIG) s).

(** ** Strings *)

(** [s.includes(p)]: [p] occurs in [s] as a contiguous run of characters. *)
Fixpoint includes (s p : string) : bool :=
  String.prefix p s ||
  match s with
  | EmptyString => false
  | String _ s' => includes s' p
  end.

(** The default order of [Array.prototype.sort]: strings compared
    lexicographically by their code units. *)
Definition str_le (a b : string) : Prop := String.leb a b = true.

Global Instance str_le_dec : RelDecision str_le.
Proof. intros a b. unfold str_le. apply _. Defined.

Global Instance str_le_total : Total str_le.
Proof. intros a b. apply String.leb_total. Qed.

(** ** Pagination arithmetic *)

(** [const ICONS_PER_PAGE = 60] *)
Definition ICONS_PER_PAGE : nat := 60.

(** [Math.ceil(n / d)] on a list length [n] and a positive [d]: the
    quotient of two integers below 2^32 is rounded to a double that lies on
    the same side of every integer, so the ceiling is the integer one. *)
Definition Math_ceil_div (n d : nat) : nat :=
  (n / d + (if Nat.eqb (n mod d) 0 then 0 else 1))%nat.

(** [l.slice(start, end)] for indices that are not negative. *)
Definition slice {A} (l : list A) (start end_ : nat) : list A :=
  take (end_ - start) (drop start l).

(** ** The rendered tree *)

(** The elements of the JSX that carry an event handler, in source order.
    A preset button is named by its index in the array it is mapped from,
    an icon button by the icon name it is keyed with. *)
Inductive Site :=
  | Control | NameInput | ConfigToggle | ConfigClose
  | SizePreset (i : nat) | SizeInput
  | ColorPreset (i : nat) | ColorInput
  | StrokePreset (i : nat) | StrokeInput
  | AbsoluteStrokeCheckbox
  | PanelRestore | PanelConfirm
  | DialogClose | DialogCancel | DialogConfirm
  | PickerClose | SearchInput
  | IconButton (iconName : string)
  | PrevPage | NextPage.

(** An element keeps its tag, its [className] split at spaces, the handler
    site it is (if any), its [disabled] attribute and its children; [style],
    [key], ARIA and the other attributes are left out.  [IconEl] is an
    [<Icon .../>] element with its [name] and the other props (what
    lucide-react draws for it is not part of the tree), [Text] a literal
    text and [Expr] a [{value}] child. *)
Inductive Node :=
  | El (tag : string) (className : list string) (site : option Site)
       (disabled : bool) (children : list Node)
  | IconEl (name : jsval) (props : gmap string jsval)
  | Text (s : string)
  | Expr (v : jsval).

Definition div (children : list Node) : Node := El "div" [] None false children.
Definition el (tag : string) (children : list Node) : Node :=
  El tag [] None false children.
Definition button (t : Site) (children : list Node) : Node :=
  El "button" [] (Some t) false children.
Definition input (t : Site) : Node := El "input" [] (Some t) false [].

Global Instance Site_eq_dec : EqDecision Site.
Proof. solve_decision. Defined.

(** [cond && <element/>] as a child: rendered when [cond] holds. *)
Definition when (cond : bool) (n : Node) : list Node :=
  if cond then [n] else [].

(** A node of a document is addressed by the path of child indices from the
    root. *)
Definition Path := list nat.

(** The first element in document order that has class [cls], below [n]. *)
Fixpoint querySelectorFrom (cls : string) (here : Path) (n : Node) : option Path :=
  match n with
  | El _ className _ _ children =>
      if bool_decide (cls ∈ className) then Some here
      else
        (fix go (i : nat) (l : list Node) : option Path :=
           match l with
           | [] => None
           | c :: l' =>
               match querySelectorFrom cls (here ++ [i])%list c with
               | Some p => Some p
               | None => go (S i) l'
               end
           end) 0 children
  | _ => None
  end.

(** [document.querySelector('.cls')] *)
Definition querySelector (document : Node) (cls : string) : option Path :=
  querySelectorFrom cls [] document.

(** [a.contains(b)]: [b] is [a] or a descendant of [a]. *)
Definition contains (a b : Path) : bool := bool_decide (a `prefix_of` b).

(** Every class name that occurs on an element of the tree. *)
Fixpoint classesOf (n : Node) : list string :=
  match n with
  | El _ className _ _ children => (className ++ concat (map classesOf children))%list
  | _ => []
  end.

(** The handler sites of the tree that can receive events: those of
    elements that are rendered and not [disabled]. *)
Fixpoint sitesOf (n : Node) : list Site :=
  match n with
  | El _ _ site disabled_ children =>
      (match site with
       | Some t => if disabled_ then [] else [t]
       | None => []
       end ++ concat (map sitesOf children))%list
  | _ => []
  end.

(** ** Constants of the configuration panel *)

(** [const PREDEFINED_SIZES = [16, 20, 24, 32, 40, 48, 64]] *)
Definition PREDEFINED_SIZES : list float :=
  [16; 20; 24; 32; 40; 48; 64]%float.

(** [const PREDEFINED_STROKE_WIDTHS = [0.5, 1, 1.5, 2, 2.5, 3]] *)
Definition PREDEFINED_STROKE_WIDTHS : list float :=
  [0.5; 1; 1.5; 2; 2.5; 3]%float.

(** [const COLOR_PALETTE: ColorOption[]], each entry as (value, tooltip). *)
Definition COLOR_PALETTE : list (string * string) :=
  [ ("currentColor",
     "Uses the text color from your frontend theme (recommended for consistent styling)");
    ("#000000", "Black"); ("#ffffff", "White"); ("#64748b", "Slate");
    ("#ef4444", "Red"); ("#dc2626", "Red (Dark)"); ("#fca5a5", "Red (Light)");
    ("#f97316", "Orange"); ("#ea580c", "Orange (Dark)"); ("#fdba74", "Orange (Light)");
    ("#f59e0b", "Amber"); ("#d97706", "Amber (Dark)"); ("#fcd34d", "Amber (Light)");
    ("#22c55e", "Green"); ("#16a34a", "Green (Dark)"); ("#86efac", "Green (Light)");
    ("#14b8a6", "Teal"); ("#0d9488", "Teal (Dark)"); ("#5eead4", "Teal (Light)");
    ("#3b82f6", "Blue"); ("#2563eb", "Blue (Dark)"); ("#93c5fd", "Blue (Light)");
    ("#a855f7", "Purple"); ("#9333ea", "Purple (Dark)"); ("#d8b4fe", "Purple (Light)");
    ("#ec4899", "Pink"); ("#db2777", "Pink (Dark)"); ("#f9a8d4", "Pink (Light)") ].

(** [iconName.replace(/-/g, ' ')] *)
Fixpoint replaceDashes (s : string) : string :=
  match s with
  | EmptyString => EmptyString
  | String c s' =>
      String (if Ascii.eqb c "-"%char then " "%char else c) (replaceDashes s')
  end.

(** [v === s] for a string [s]. *)
Definition strictEqString (v : jsval) (s : string) : bool :=
  match v with
  | JString t => String.eqb t s
  | _ => false
  end.

(** A list length as a JavaScript number. *)
Definition number_of_nat (n : nat) : float :=
  PrimFloat.of_uint63 (Uint63.of_Z (Z.of_nat n)).

(** ** The icon store *)

(** What [dynamic(loader)] of next/dynamic returns: a new component each
    time it is called.  [serial] tells the components apart (it is the
    number of calls of [dynamic] made before this one) and [loadedFrom] is
    the argument, [None] for [undefined]. *)
Record Component (loader : Type) := mkComponent {
  serial : nat;
  loadedFrom : option loader
}.
Arguments mkComponent {loader} _ _.
Arguments serial {loader} _.
Arguments loadedFrom {loader} _.

(** The module-level [const iconCache: Record<string, ...> = {}], together
    with the number of calls of [dynamic] made so far. *)
Record IconStore (loader : Type) := mkIconStore {
  iconCache : gmap string (Component loader);
  dynamicCalls : nat
}.
Arguments mkIconStore {loader} _ _.
Arguments iconCache {loader} _.
Arguments dynamicCalls {loader} _.

(** The store when the module is loaded. *)
Definition emptyStore {loader : Type} : IconStore loader := mkIconStore ∅ 0.

(** The cache is a plain object [{}], so reading [iconCache[name]] also finds
    what every object inherits from [Object.prototype].  These are its
    property names; each reads as a function or an object, hence truthy. *)
Definition objectPrototypeKeys : list string :=
  ["constructor"; "__defineGetter__"; "__defineSetter__"; "hasOwnProperty";
   "__lookupGetter__"; "__lookupSetter__"; "isPrototypeOf";
   "propertyIsEnumerable"; "toString"; "valueOf"; "__proto__";
   "toLocaleString"].

(** What [iconCache[name]] evaluates to when it is not [undefined]: a
    component stored by this file, or the inherited property of that name. *)
Inductive Resolved (loader : Type) :=
  | FromDynamic (c : Component loader)
  | Inherited (key : string).
Arguments FromDynamic {loader} _.
Arguments Inherited {loader} _.

(** [iconCache[name]]: the own entry if there is one, else the inherited
    property, else [undefined]. *)
Definition cacheRead {loader : Type} (st : IconStore loader) (name : string)
    : option (Resolved loader) :=
  match iconCache st !! name with
  | Some c => Some (FromDynamic c)
  | None =>
      if bool_decide (name ∈ objectPrototypeKeys) then Some (Inherited name)
      else None
  end.

(** ** Sample inputs

    A registry of seventy lucide names in no particular order (each loader
    is written as the module it would import), an ASCII [toLowerCase], and
    number parsers that stand for the built-ins on text that is not a
    number.  They instantiate the component in the examples at the end. *)

Definition sampleNames : list string :=
  [
    "home"; "search"; "settings"; "user"; "check"; "x";
    "palette"; "rotate-ccw"; "chevron-left"; "chevron-right"; "activity"; "airplay";
    "alarm-clock"; "album"; "anchor"; "aperture"; "archive"; "arrow-down";
    "arrow-left"; "arrow-right"; "arrow-up"; "at-sign"; "award"; "badge";
    "banknote"; "battery"; "bell"; "bike"; "bluetooth"; "bold";
    "book"; "bookmark"; "box"; "briefcase"; "brush"; "bug";
    "calendar"; "camera"; "car"; "cast"; "circle"; "clipboard";
    "clock"; "cloud"; "code"; "coffee"; "cog"; "compass";
    "copy"; "cpu"; "database"; "disc"; "download"; "droplet";
    "edit"; "eye"; "feather"; "file"; "film"; "filter";
    "flag"; "folder"; "gift"; "globe"; "hammer"; "hash";
    "heart"; "house-plus"; "image"; "inbox" ].

Definition sampleImports : gmap string string :=
  list_to_map (map (λ name, (name, "lucide-react/icons/" +:+ name)) sampleNames).

Definition asciiLowerChar (c : ascii) : ascii :=
  let n := nat_of_ascii c in
  if ((65 <=? n) && (n <=? 90))%nat then ascii_of_nat (n + 32) else c.

Fixpoint asciiToLowerCase (s : string) : string :=
  match s with
  | EmptyString => EmptyString
  | String c s' => String (asciiLowerChar c) (asciiToLowerCase s')
  end.

Definition parseNaN (text : string) : float := nan.

Section Component.

(** What the component takes from outside this file: the registry
    [dynamicIconImports] of lucide-react (icon name to loader), the string
    and number built-ins, and the props [field.label], [field.required]. *)
Context {loader : Type}.
Variable dynamicIconImports : gmap string loader.
Variable toLowerCase : string → string.
Variable parseInt : string → float.
Variable parseFloat : string → float.
Variable label : string.
Variable required : bool.

(** *** Catalog and search *)

(** [Object.keys(dynamicIconImports).sort()] *)
Definition allIcons : list string :=
  merge_sort str_le (map_to_list dynamicIconImports).*1.

(** [if (!debouncedSearch) return allIcons;
    return allIcons.filter(name =>
      name.toLowerCase().includes(debouncedSearch.toLowerCase()))] *)
Definition filteredIcons (debounced : string) : list string :=
  if negb (truthy (JString debounced)) then allIcons
  else List.filter
         (λ name, includes (toLowerCase name) (toLowerCase debounced))
         allIcons.

(** [Math.ceil(filteredIcons.length / ICONS_PER_PAGE)] *)
Definition totalPages (debounced : string) : nat :=
  Math_ceil_div (length (filteredIcons debounced)) ICONS_PER_PAGE.

(** [filteredIcons.slice(page * ICONS_PER_PAGE, (page + 1) * ICONS_PER_PAGE)] *)
Definition paginatedIcons (debounced : string) (pg : nat) : list string :=
  slice (filteredIcons debounced) (pg * ICONS_PER_PAGE) ((pg + 1) * ICONS_PER_PAGE).

(** *** Icon resolution *)

(** [if (!iconCache[name]) { iconCache[name] = dynamic(dynamicIconImports[name]) }]:
    whatever [iconCache[name]] reads, a stored component or an inherited
    property, is truthy, so the body runs only when it reads [undefined].
    The name is then not an inherited one, and [dynamicIconImports[name]] is
    the registry's own entry. *)
Definition populate (name : string) (st : IconStore loader) : IconStore loader :=
  match cacheRead st name with
  | Some _ => st
  | None =>
      mkIconStore
        (<[name := mkComponent (dynamicCalls st) (dynamicIconImports !! name)]>
           (iconCache st))
        (S (dynamicCalls st))
  end.

(** The body of [Icon]: populate, then [const LucideIcon = iconCache[name]];
    the result is what is rendered as [<LucideIcon .../>] and the store
    after. *)
Definition Icon (name : string) (st : IconStore loader)
    : option (Resolved loader) * IconStore loader :=
  let st' := populate name st in
  (cacheRead st' name, st').

(** [['check', 'x', 'user', 'settings', 'home', 'search']
      .filter(name => name in dynamicIconImports)] *)
Definition popularIcons : list string :=
  List.filter (λ name, bool_decide (is_Some (dynamicIconImports !! name)))
    ["check"; "x"; "user"; "settings"; "home"; "search"].

(** The preload effect: [popularIcons.forEach(name => { if (!iconCache[name])
    { iconCache[name] = dynamic(dynamicIconImports[name]) } })] *)
Definition preload (st : IconStore loader) : IconStore loader :=
  foldl (λ st name, populate name st) st popularIcons.

(** The operations that touch the store: a render of [<Icon name=.../>] and
    the preload effect of a mounting field. *)
Inductive StoreOp :=
  | RenderIcon (name : string)
  | Preload.

Definition runOp (st : IconStore loader) (op : StoreOp) : IconStore loader :=
  match op with
  | RenderIcon name => (Icon name st).2
  | Preload => preload st
  end.

Definition runOps (st : IconStore loader) (ops : list StoreOp) : IconStore loader :=
  foldl runOp st ops.

(** The store has made one call of [dynamic] per entry. *)
Definition counted (st : IconStore loader) : Prop :=
  dynamicCalls st = size (iconCache st).

(** *** Rendering *)

(** The props [size], [color], [strokeWidth], [absoluteStrokeWidth] that an
    icon is given from the value. *)
Definition iconProps (v : gmap string jsval) : gmap string jsval :=
  {[ "size" := get v "size";
     "color" := get v "color";
     "strokeWidth" := get v "strokeWidth";
     "absoluteStrokeWidth" := get v "absoluteStrokeWidth" ]}.

(** [<Icon name="..." size={n} />] *)
Definition fixedIcon (name : string) (size : float) : Node :=
  IconEl (JString name) {[ "size" := JNumber size ]}.

(** The collapsed field control: the [role="button"] box with
    [value.name ? <Icon name={value.name} .../> : <span>Icon</span>]. *)
Definition renderControl (s : State) : Node :=
  El "div" [] (Some Control) false
    [ if truthy (get (value s) "name")
      then IconEl (get (value s) "name") (iconProps (value s))
      else el "span" [Text "Icon"] ].

(** The collapsed control in its placeholder state. *)
Definition placeholderControl : Node :=
  El "div" [] (Some Control) false [el "span" [Text "Icon"]].

(** The children of [array.map((x) => f x)], with the index of each. *)
Definition mapi {A} (f : nat → A → Node) (l : list A) : list Node :=
  imap f l.

(** The configuration panel, rendered under [showConfig && (...)].  The
    value only enters it through [style] and the [value] attributes of the
    inputs, which the tree leaves out. *)
Definition renderConfigPanel : Node :=
  div
    [ div [ el "h3" [Text "Icon Configuration"];
            button ConfigClose [fixedIcon "x" 16] ];
      div
        [ div [ el "label" [Text "Size"];
                div (mapi (λ i size, button (SizePreset i) [Expr (JNumber size)])
                       PREDEFINED_SIZES);
                input SizeInput ];
          div [ el "label" [Text "Color"];
                div (mapi (λ i colorOption,
                             button (ColorPreset i)
                               (if String.eqb colorOption.1 "currentColor"
                                then [fixedIcon "palette" 14;
                                      el "span" [Text "Current Color"]]
                                else [div []]))
                       COLOR_PALETTE);
                input ColorInput ];
          div [ el "label" [Text "Stroke Width"];
                div (mapi (λ i width, button (StrokePreset i) [Expr (JNumber width)])
                       PREDEFINED_STROKE_WIDTHS);
                input StrokeInput ];
          div [ el "label" [input AbsoluteStrokeCheckbox;
                            Text "Absolute Stroke Width"] ];
          div [ El "button" ["icon-config-panel__reset"] (Some PanelRestore) false
                  [fixedIcon "rotate-ccw" 14; Text "Restore Defaults"];
                El "button" ["icon-config-panel__confirm"] (Some PanelConfirm) false
                  [Text "Reset to Defaults"] ] ] ].

(** The confirmation dialog, rendered under [showResetConfirm && (...)]. *)
Definition renderResetConfirm : Node :=
  div
    [ div
        [ div [ el "h3" [Text "Reset Configuration"];
                button DialogClose [fixedIcon "x" 16] ];
          div [ el "p" [Text "Are you sure you want to restore default configuration?"];
                el "p" [Text "This will reset size, color, stroke width, and absolute stroke settings to their default values. The selected icon will be preserved."] ];
          div [ button DialogCancel [Text "Cancel"];
                button DialogConfirm [Text "Reset to Defaults"] ] ] ].

(** One button of the icon grid. *)
Definition renderIconButton (s : State) (iconName : string) : Node :=
  button (IconButton iconName)
    (when (strictEqString (get (value s) "name") iconName) (div []) ++
     [ IconEl (JString iconName) (iconProps (value s));
       el "span" [Text (replaceDashes iconName)] ])%list.

(** The picker dialog, rendered under [fieldIsFocused && (...)]. *)
Definition renderPicker (s : State) : Node :=
  let shown := paginatedIcons (debouncedSearch s) (page s) in
  let pages := totalPages (debouncedSearch s) in
  div
    ([ div [ el "h2" [Text "Select an Icon"];
             button PickerClose [fixedIcon "x" 20] ];
       div [ input SearchInput ];
       div [ Text "Showing "; Expr (JNumber (number_of_nat (length shown)));
             Text " of ";
             Expr (JNumber (number_of_nat (length (filteredIcons (debouncedSearch s)))));
             Text " icons" ];
       div (if 0 <? length shown
            then map (renderIconButton s) shown
            else [ div [Text "No icons found matching "; Expr (JString (debouncedSearch s))] ])%nat ]
     ++ when (1 <? pages)%nat
          (div [ El "button" [] (Some PrevPage) (page s =? 0)%nat
                   [fixedIcon "chevron-left" 16; Text "Previous"];
                 el "span" [ Text "Page "; Expr (JNumber (number_of_nat (page s + 1)));
                             Text " of "; Expr (JNumber (number_of_nat pages)) ];
                 El "button" [] (Some NextPage) (page s =? pages - 1)%nat
                   [Text "Next"; fixedIcon "chevron-right" 16] ]))%list.

(** What [IconSelectField] returns. *)
Definition render (s : State) : Node :=
  El "div" ["w-full"; "field-type"; "text"] None false
    [ El "label" ["field-label"] None false
        ([Text label] ++ when required (El "span" ["required"] None false [Text "*"]))%list;
      div
        ([ renderControl s;
           input NameInput;
           button ConfigToggle [fixedIcon "settings" 20] ]
         ++ when (showConfig s) renderConfigPanel
         ++ when (showResetConfirm s) renderResetConfirm
         ++ when (fieldIsFocused s) (renderPicker s))%list ].

(** *** Events and handlers *)

(** An event on a handler site.  [Change] carries [e.target.value] and
    [e.target.checked] of the input. *)
Inductive Event :=
  | Click (t : Site)
  | KeyDown (t : Site) (key : string)
  | Change (t : Site) (text : string) (checked : bool)
  | MouseOver (t : Site)
  | MouseOut (t : Site).

Definition siteOf (e : Event) : Site :=
  match e with
  | Click t | KeyDown t _ | Change t _ _ | MouseOver t | MouseOut t => t
  end.

(** The inline handlers of the JSX and the three callbacks, by site.  In
    [PrevPage] and [NextPage] the subtraction is the one on [nat]: at page 0
    [Math.max(0, p - 1)] is 0 either way, and the [NextPage] button is only
    rendered when [totalPages > 1]. *)
Definition handle (e : Event) (s : State) : State :=
  match e with
  | Click Control | Click NameInput => setFieldIsFocused true s
  | KeyDown Control key | KeyDown NameInput key =>
      if String.eqb key "Enter" || String.eqb key " "
      then setFieldIsFocused true s else s
  | Click ConfigToggle => setShowConfig (negb (showConfig s)) s
  | Click ConfigClose => setShowConfig false s
  | Click (SizePreset i) =>
      match PREDEFINED_SIZES !! i with
      | Some size => handleConfigChange "size" (JNumber size) s
      | None => s
      end
  | Change SizeInput text _ => handleConfigChange "size" (JNumber (parseInt text)) s
  | Click (ColorPreset i) =>
      match COLOR_PALETTE !! i with
      | Some colorOption => handleConfigChange "color" (JString colorOption.1) s
      | None => s
      end
  | Change ColorInput text _ => handleConfigChange "color" (JString text) s
  | Click (StrokePreset i) =>
      match PREDEFINED_STROKE_WIDTHS !! i with
      | Some width => handleConfigChange "strokeWidth" (JNumber width) s
      | None => s
      end
  | Change StrokeInput text _ =>
      handleConfigChange "strokeWidth" (JNumber (parseFloat text)) s
  | Change AbsoluteStrokeCheckbox _ checked =>
      handleConfigChange "absoluteStrokeWidth" (JBool checked) s
  | Click PanelRestore => setShowResetConfirm true s
  | Click PanelConfirm => handleResetToDefaults s
  | Click DialogClose | Click DialogCancel => setShowResetConfirm false s
  | Click DialogConfirm => handleResetToDefaults s
  | Click PickerClose => setSearch "" (setFieldIsFocused false s)
  | Change SearchInput text _ => setSearch text s
  | Click (IconButton iconName) => handleIconSelect iconName s
  | MouseOver (IconButton iconName) => setHoveredIcon (Some iconName) s
  | MouseOut (IconButton _) => setHoveredIcon None s
  | Click PrevPage => setPage (Nat.max 0 (page s - 1)) s
  | Click NextPage =>
      setPage (Nat.min (totalPages (debouncedSearch s) - 1) (page s + 1)) s
  | _ => s
  end.

(** An event reaches its handler only when the element is in the rendered
    tree and not disabled. *)
Definition dispatch (e : Event) (s : State) : State :=
  if bool_decide (siteOf e ∈ sitesOf (render s)) then handle e s else s.

(** [handleClickOutside], the [mousedown] listener on [document]. *)
Definition handleClickOutside (document : Node) (target : Path) (s : State) : State :=
  match querySelector document "icon-picker-modal",
        querySelector document "icon-select-field" with
  | Some modalElement, Some fieldElement =>
      if fieldIsFocused s
         && negb (contains modalElement target)
         && negb (contains fieldElement target)
      then setSearch "" (setFieldIsFocused false s)
      else s
  | _, _ => s
  end.

(** Everything that can happen to a mounted field: an event on one of its
    elements, a [mousedown] somewhere in the document, or the debounce timer
    running out. *)
Inductive Input :=
  | Dom (e : Event)
  | MouseDown (document : Node) (target : Path)
  | Timeout.

Definition step (s : State) (i : Input) : State :=
  match i with
  | Dom e => dispatch e s
  | MouseDown document target => handleClickOutside document target s
  | Timeout => timerFires s
  end.

Definition run (s : State) (inputs : list Input) : State := foldl step s inputs.

(** The states that are committed (and rendered) while an input is
    processed, the last being [step s i]: the handlers of an event set their
    state in one batch, while the timer callback commits once before the
    page reset effect commits again. *)
Definition commits (s : State) (i : Input) : list State :=
  match i with
  | Timeout => [timerCallback s; timerFires s]
  | _ => [step s i]
  end.

(** The inputs that reach a handler calling [handleResetToDefaults]. *)
Definition invokesReset (s : State) (i : Input) : bool :=
  match i with
  | Dom (Click PanelConfirm) => bool_decide (PanelConfirm ∈ sitesOf (render s))
  | Dom (Click DialogConfirm) => bool_decide (DialogConfirm ∈ sitesOf (render s))
  | _ => false
  end.

(** *** The display form of a name *)

(** [\w]: a letter, a digit or the underscore. *)
Definition isWordChar (c : ascii) : bool :=
  let n := nat_of_ascii c in
  ((48 <=? n) && (n <=? 57) || (65 <=? n) && (n <=? 90)
   || (n =? 95) || (97 <=? n) && (n <=? 122))%nat.

(** [c.toUpperCase()] for a character matched by [\w]. *)
Definition wordCharToUpperCase (c : ascii) : ascii :=
  let n := nat_of_ascii c in
  if ((97 <=? n) && (n <=? 122))%nat then ascii_of_nat (n - 32) else c.

(** [s.replace(/\b\w/g, (c) => c.toUpperCase())]: a word character is
    replaced when the character before it is not one (or there is none);
    [afterWord] tells whether the character before is a word character. *)
Fixpoint capitalizeWords (afterWord : bool) (s : string) : string :=
  match s with
  | EmptyString => EmptyString
  | String c s' =>
      String (if isWordChar c && negb afterWord then wordCharToUpperCase c else c)
        (capitalizeWords (isWordChar c) s')
  end.

(** [name.replace(/-/g, ' ').replace(/\b\w/g, (c) => c.toUpperCase())], the
    text of the read-only input and the [title] of an icon button. *)
Definition displayName (name : string) : string :=
  capitalizeWords false (replaceDashes name).

(** *** Conditions on a state *)

(** The page index is 0 or the index of an existing page. *)
Definition pageInRange (s : State) : Prop :=
  page s = 0%nat ∨ (page s < totalPages (debouncedSearch s))%nat.

(** A pending debounce timer holds the current search text, and with no
    timer pending the debounced text is the search text. *)
Definition debounceSettled (s : State) : Prop :=
  match timer s with
  | Some v => v = search s
  | None => debouncedSearch s = search s
  end.

(** The object has the five fields of the persisted shape, each of its
    type, and nothing else. *)
Definition wellShaped (v : gmap string jsval) : Prop :=
  ∃ n sz col sw a, v = mkConfig n sz col sw a.

(** The [name] of the object is the empty string or a registered name. *)
Definition nameRegistered (v : gmap string jsval) : Prop :=
  ∃ n, get v "name" = JString n ∧ (n = "" ∨ is_Some (dynamicIconImports !! n)).

(** The inputs whose handler calls [setValue]. *)
Definition writesValue (i : Input) : bool :=
  match i with
  | Dom (Click (SizePreset _)) | Dom (Click (ColorPreset _))
  | Dom (Click (StrokePreset _)) | Dom (Click PanelConfirm)
  | Dom (Click DialogConfirm) | Dom (Click (IconButton _))
  | Dom (Change SizeInput _ _) | Dom (Change ColorInput _ _)
  | Dom (Change StrokeInput _ _) | Dom (Change AbsoluteStrokeCheckbox _ _) => true
  | _ => false
  end.

(** Every entry of the store was made from the registry entry of its own
    name, by a call of [dynamic] that the counter has counted, and its name
    is not an inherited one. *)
Definition storeConsistent (st : IconStore loader) : Prop :=
  ∀ k c, iconCache st !! k = Some c →
    loadedFrom c = dynamicIconImports !! k ∧ (serial c < dynamicCalls st)%nat
    ∧ k ∉ objectPrototypeKeys.

(** Different names have different components. *)
Definition storeDistinct (st : IconStore loader) : Prop :=
  ∀ k1 k2 c1 c2, iconCache st !! k1 = Some c1 → iconCache st !! k2 = Some c2 →
    serial c1 = serial c2 → k1 = k2.

(** The handler sites that belong to the picker dialog. *)
Definition pickerSite (t : Site) : bool :=
  match t with
  | PickerClose | SearchInput | IconButton _ | PrevPage | NextPage => true
  | _ => false
  end.

Global Instance Event_eq_dec : EqDecision Event.
Proof. solve_decision. Defined.

(** ** Properties of the value writers *)

Lemma value_setValue v s : value (setValue v s) = v.
Proof. reflexivity. Qed.

(** The timer firing, start to end. *)
Lemma timerFires_unfold s :
  timerFires s
  = match timer s with
    | None => s
    | Some v =>
        if decide (debouncedSearch s = v)
        then mkState (hostValue s) (fieldIsFocused s) (search s) (page s)
               (hoveredIcon s) (showConfig s) (showResetConfirm s) v None
        else setPage 0
               (mkState (hostValue s) (fieldIsFocused s) (search s) (page s)
                  (hoveredIcon s) (showConfig s) (showResetConfirm s) v None)
    end.
Proof.
  unfold timerFires, pageResetEffect, timerCallback.
  destruct (timer s) as [v|]; [done|]. by rewrite decide_True.
Qed.

Lemma hostValue_setSearch x s : hostValue (setSearch x s) = hostValue s.
Proof. unfold setSearch. by case_decide. Qed.

Lemma value_setSearch x s : value (setSearch x s) = value s.
Proof. unfold value. by rewrite hostValue_setSearch. Qed.

Lemma get_insert_eq (o : gmap string jsval) k v : get (<[k := v]> o) k = v.
Proof. unfold get. by rewrite lookup_insert_eq. Qed.

Lemma get_insert_ne (o : gmap string jsval) k k' v :
  k ≠ k' → get (<[k := v]> o) k' = get o k'.
Proof. intros. unfold get. by rewrite lookup_insert_ne. Qed.

Lemma value_handleIconSelect n s :
  value (handleIconSelect n s) = <["name" := JString n]> (value s).
Proof. unfold handleIconSelect. by rewrite value_setSearch. Qed.

(** C1: [selectIcon(n)] (the callback [handleIconSelect]) writes to the host
    the current effective value with [name] replaced by [n]: the new [name]
    is [n], the fields [size], [color], [strokeWidth] and
    [absoluteStrokeWidth] (and any other property) are those of the prior
    effective value, and a complete configuration stays complete. *)
Theorem handleIconSelect_replaces_only_name (s : State) (n : string) :
  hostValue (handleIconSelect n s) = Some (value (handleIconSelect n s))
  ∧ get (value (handleIconSelect n s)) "name" = JString n
  ∧ get (value (handleIconSelect n s)) "size" = get (value s) "size"
  ∧ get (value (handleIconSelect n s)) "color" = get (value s) "color"
  ∧ get (value (handleIconSelect n s)) "strokeWidth" = get (value s) "strokeWidth"
  ∧ get (value (handleIconSelect n s)) "absoluteStrokeWidth"
    = get (value s) "absoluteStrokeWidth"
  ∧ (∀ k, k ≠ "name" → value (handleIconSelect n s) !! k = value s !! k)
  ∧ (∀ n0 sz col sw a,
       value (handleIconSelect n (setValue (mkConfig n0 sz col sw a) s))
       = mkConfig n sz col sw a).
Proof.
  rewrite value_handleIconSelect.
  split_and!; try (by rewrite get_insert_ne).
  - unfold handleIconSelect. rewrite hostValue_setSearch. reflexivity.
  - apply get_insert_eq.
  - intros k Hk. by rewrite lookup_insert_ne.
  - intros. rewrite value_handleIconSelect, value_setValue.
    unfold mkConfig. by rewrite insert_insert_eq.
Qed.

(** C2: [resetToDefaults()] (the callback [handleResetToDefaults]) writes
    [{name: <prior name>, size: 24, color: "currentColor", strokeWidth: 2,
    absoluteStrokeWidth: false}], whatever the other fields were. *)
Theorem handleResetToDefaults_keeps_name (s : State) :
  hostValue (handleResetToDefaults s)
  = Some {[ "name" := get (value s) "name";
            "size" := JNumber 24;
            "color" := JString "currentColor";
            "strokeWidth" := JNumber 2;
            "absoluteStrokeWidth" := JBool false ]}
  ∧ (∀ n sz col sw a,
       value (handleResetToDefaults (setValue (mkConfig n sz col sw a) s))
       = mkConfig n 24 "currentColor" 2 false).
Proof.
  split.
  - change (hostValue (handleResetToDefaults s))
      with (Some (<["name" := get (value s) "name"]> DEFAULT_ICON_CONFIG)).
    unfold DEFAULT_ICON_CONFIG. by rewrite insert_insert_eq.
  - intros n sz col sw a.
    change (value (handleResetToDefaults (setValue (mkConfig n sz col sw a) s)))
      with (<["name" := get (mkConfig n sz col sw a) "name"]> DEFAULT_ICON_CONFIG).
    unfold DEFAULT_ICON_CONFIG, mkConfig, get.
    rewrite lookup_insert_eq. by rewrite insert_insert_eq.
Qed.

(** C3: [setConfigField(k, v)] (the callback [handleConfigChange]) writes the
    current effective value with field [k] set to [v]; every other field is
    as in the prior effective value. *)
Theorem handleConfigChange_sets_one_field (s : State) (k : string) (v : jsval) :
  hostValue (handleConfigChange k v s) = Some (<[k := v]> (value s))
  ∧ value (handleConfigChange k v s) !! k = Some v
  ∧ get (value (handleConfigChange k v s)) k = v
  ∧ (∀ k', k' ≠ k →
       value (handleConfigChange k v s) !! k' = value s !! k'
       ∧ get (value (handleConfigChange k v s)) k' = get (value s) k').
Proof.
  change (value (handleConfigChange k v s)) with (<[k := v]> (value s)).
  split_and!.
  - reflexivity.
  - apply lookup_insert_eq.
  - apply get_insert_eq.
  - intros k' Hk. split.
    + by rewrite lookup_insert_ne.
    + by rewrite get_insert_ne.
Qed.

(** ** The collapsed control *)

Lemma truthy_JString n : truthy (JString n) = false ↔ n = "".
Proof.
  cbn. rewrite negb_false_iff. apply String.eqb_eq.
Qed.

Lemma get_mkConfig_name n sz col sw a : get (mkConfig n sz col sw a) "name" = JString n.
Proof. unfold mkConfig. apply get_insert_eq. Qed.

Lemma renderControl_mkConfig s n sz col sw a :
  renderControl (setValue (mkConfig n sz col sw a) s)
  = if truthy (JString n)
    then El "div" [] (Some Control) false
           [IconEl (JString n) (iconProps (mkConfig n sz col sw a))]
    else placeholderControl.
Proof.
  unfold renderControl. rewrite value_setValue, get_mkConfig_name.
  by destruct (truthy (JString n)).
Qed.

(** The collapsed control is in its placeholder state exactly when the
    stored name is empty; for any other name it holds an [<Icon/>] element
    of that name. *)
Lemma renderControl_placeholder_iff s n sz col sw a :
  renderControl (setValue (mkConfig n sz col sw a) s) = placeholderControl
  ↔ n = "".
Proof.
  rewrite renderControl_mkConfig.
  destruct (truthy (JString n)) eqn:Ht.
  - split; [discriminate|]. intros ->. discriminate.
  - split; [|done]. intros _. by apply truthy_JString.
Qed.

(** ** Search *)

Lemma String_app c a b : String c a +:+ b = String c (a +:+ b).
Proof. reflexivity. Qed.

Lemma prefix_spec p s : String.prefix p s = true ↔ ∃ b, s = p +:+ b.
Proof.
  revert s. induction p as [|c p IH]; intros [|d s]; cbn.
  - split; [by exists ""|done].
  - split; [by exists (String d s)|done].
  - split; [done|]. by intros [b Hb].
  - destruct (Ascii.ascii_dec c d) as [->|Hne].
    + rewrite IH. split; intros [b Hb]; exists b;
        rewrite String_app in *; congruence.
    + split; [done|]. intros [b Hb]. rewrite String_app in Hb. congruence.
Qed.

(** [includes] is containment as a contiguous substring. *)
Lemma includes_spec s p : includes s p = true ↔ ∃ a b, s = a +:+ p +:+ b.
Proof.
  induction s as [|c s IH]; cbn [includes]; rewrite orb_true_iff, prefix_spec.
  - split.
    + intros [[b Hb]|?]; [|done]. exists "", b. done.
    + intros ([|? a] & b & Hab); [|done]. left. eauto.
  - rewrite IH. split.
    + intros [[b Hb]|(a & b & Hab)].
      * exists "", b. done.
      * exists (String c a), b. by rewrite String_app, Hab.
    + intros ([|d a] & b & Hab).
      * left. eauto.
      * right. exists a, b. rewrite String_app in Hab. congruence.
Qed.

Lemma sublist_List_filter {A} (f : A → bool) (l : list A) :
  List.filter f l `sublist_of` l.
Proof.
  induction l as [|x l IH]; cbn; [constructor|].
  destruct (f x); by constructor.
Qed.

Lemma allIcons_Permutation : allIcons ≡ₚ (map_to_list dynamicIconImports).*1.
Proof. apply merge_sort_Permutation. Qed.

(** The catalog is the set of registered names. *)
Lemma elem_of_allIcons name : name ∈ allIcons ↔ is_Some (dynamicIconImports !! name).
Proof.
  rewrite allIcons_Permutation, list_elem_of_fmap. split.
  - intros [[k v] [-> Hkv]]. apply elem_of_map_to_list in Hkv. eauto.
  - intros [v Hv]. exists (name, v). split; [done|]. by apply elem_of_map_to_list.
Qed.

Lemma allIcons_NoDup : NoDup allIcons.
Proof.
  rewrite allIcons_Permutation. apply NoDup_fst_map_to_list.
Qed.

(** The catalog is in the order of the default [sort]. *)
Lemma allIcons_Sorted : Sorted str_le allIcons.
Proof. apply Sorted_merge_sort, _. Qed.

(** C5: a name is in the filtered list for the debounced text [s] iff it is
    a catalog name whose lower-cased form contains the lower-cased [s] as a
    substring; the filtered list keeps the catalog order, and for the empty
    text it is the whole catalog.  The catalog is the keys of the registry
    [dynamicIconImports], each once, in sorted order. *)
Theorem filteredIcons_case_insensitive_substring (s name : string)
    (Hlower : toLowerCase "" = "") :
  (name ∈ filteredIcons s
   ↔ name ∈ allIcons ∧ includes (toLowerCase name) (toLowerCase s) = true)
  ∧ (name ∈ filteredIcons s
     ↔ name ∈ allIcons ∧ ∃ a b, toLowerCase name = a +:+ toLowerCase s +:+ b)
  ∧ filteredIcons s `sublist_of` allIcons
  ∧ filteredIcons "" = allIcons
  ∧ Sorted str_le (filteredIcons "")
  ∧ (name ∈ allIcons ↔ is_Some (dynamicIconImports !! name))
  ∧ (name ∈ filteredIcons "" ↔ is_Some (dynamicIconImports !! name))
  ∧ NoDup allIcons
  ∧ allIcons ≡ₚ (map_to_list dynamicIconImports).*1.
Proof.
  assert (Hiff : name ∈ filteredIcons s
     ↔ name ∈ allIcons ∧ includes (toLowerCase name) (toLowerCase s) = true).
  { unfold filteredIcons. destruct (truthy (JString s)) eqn:Ht; cbn [negb].
    - by rewrite !list_elem_of_In, filter_In.
    - apply truthy_JString in Ht. subst s. rewrite Hlower.
      split; [|by intros [Hin _]]. intros Hin. split; [done|].
      apply includes_spec. exists "", (toLowerCase name). done. }
  split_and!.
  - exact Hiff.
  - rewrite Hiff, includes_spec. done.
  - unfold filteredIcons. destruct (truthy (JString s)); cbn [negb].
    + apply sublist_List_filter.
    + done.
  - reflexivity.
  - apply allIcons_Sorted.
  - apply elem_of_allIcons.
  - apply elem_of_allIcons.
  - apply allIcons_NoDup.
  - apply allIcons_Permutation.
Qed.

(** ** Pagination *)

(** [Math_ceil_div n d] is the least number of blocks of [d] that cover [n]. *)
Lemma Math_ceil_div_spec n d :
  (0 < d → n ≤ Math_ceil_div n d * d
           ∧ (Math_ceil_div n d ≠ 0 → (Math_ceil_div n d - 1) * d < n))%nat.
Proof.
  intros Hd. unfold Math_ceil_div.
  pose proof (Nat.div_mod_eq n d) as Hdm.
  pose proof (Nat.mod_upper_bound n d ltac:(lia)) as Hub.
  destruct (Nat.eqb_spec (n mod d) 0) as [Hz|Hnz]; split; try intros Hne; nia.
Qed.

Lemma length_slice {A} (l : list A) (i j : nat) :
  length (slice l i j) = ((j - i) `min` (length l - i))%nat.
Proof. unfold slice. by rewrite length_take, length_drop. Qed.

(** The first [n] blocks of [d] of a list, one after the other, are its
    first [n * d] elements. *)
Lemma concat_slices {A} (l : list A) (d n : nat) :
  concat (map (λ p, slice l (p * d) ((p + 1) * d)) (seq 0 n)) = take (n * d) l.
Proof.
  induction n as [|n IH].
  - reflexivity.
  - rewrite seq_S, map_app, concat_app, IH. cbn [map concat Nat.add].
    rewrite app_nil_r. unfold slice.
    replace ((n + 1) * d - n * d)%nat with d by lia.
    rewrite take_take_drop. f_equal. lia.
Qed.

Lemma lookup_slice {A} (l : list A) (d i : nat) :
  (0 < d)%nat →
  slice l (i / d * d) ((i / d + 1) * d) !! (i mod d) = l !! i.
Proof.
  intros Hd. unfold slice.
  pose proof (Nat.div_mod_eq i d) as Hdm.
  pose proof (Nat.mod_upper_bound i d ltac:(lia)) as Hub.
  rewrite lookup_take_lt by lia.
  rewrite lookup_drop. f_equal. lia.
Qed.

(** C6: with [totalPages = ceil(filteredCount / 60)], the pages 0 to
    [totalPages - 1] one after the other are the filtered list; the entry at
    index [i] of the list is entry [i mod 60] of page [i / 60]; every page
    before the last has exactly 60 entries and the last has between 1 and
    60. *)
Theorem pagination_total (debounced : string) :
  concat (map (paginatedIcons debounced) (seq 0 (totalPages debounced)))
  = filteredIcons debounced
  ∧ (∀ i, paginatedIcons debounced (i / 60) !! (i mod 60)
          = filteredIcons debounced !! i)
  ∧ (∀ p, (S p < totalPages debounced)%nat →
          length (paginatedIcons debounced p) = 60%nat)
  ∧ (∀ p, (S p = totalPages debounced)%nat →
          (1 ≤ length (paginatedIcons debounced p) ≤ 60)%nat)
  ∧ (length (filteredIcons debounced) ≤ totalPages debounced * 60
     ∧ (totalPages debounced ≠ 0 →
        (totalPages debounced - 1) * 60 < length (filteredIcons debounced)))%nat.
Proof.
  pose proof (Math_ceil_div_spec (length (filteredIcons debounced)) 60
                ltac:(lia)) as [Hle Hlt].
  fold ICONS_PER_PAGE in Hle, Hlt. fold (totalPages debounced) in Hle, Hlt.
  unfold ICONS_PER_PAGE in Hle, Hlt.
  split_and!.
  - unfold paginatedIcons, ICONS_PER_PAGE.
    rewrite (concat_slices (filteredIcons debounced) 60).
    by rewrite take_ge.
  - intros i. unfold paginatedIcons, ICONS_PER_PAGE.
    apply (lookup_slice (filteredIcons debounced) 60). lia.
  - intros p Hp. unfold paginatedIcons, ICONS_PER_PAGE.
    rewrite length_slice. lia.
  - intros p Hp. unfold paginatedIcons, ICONS_PER_PAGE.
    rewrite length_slice. lia.
  - done.
  - done.
Qed.

(** ** The icon store *)

Lemma cacheRead_None st name :
  cacheRead (loader := loader) st name = None
  ↔ iconCache st !! name = None ∧ name ∉ objectPrototypeKeys.
Proof.
  unfold cacheRead. destruct (iconCache st !! name) as [c|].
  - split; [done|by intros [? _]].
  - case_bool_decide; split; try done. by intros [_ ?].
Qed.

Lemma cacheRead_own st name (c : Component loader) :
  iconCache st !! name = Some c → cacheRead st name = Some (FromDynamic c).
Proof. intros Hc. unfold cacheRead. by rewrite Hc. Qed.

Lemma cacheRead_inherited st name :
  iconCache (loader := loader) st !! name = None →
  name ∈ objectPrototypeKeys →
  cacheRead st name = Some (Inherited name).
Proof.
  intros Hc Hp. unfold cacheRead. by rewrite Hc, bool_decide_eq_true_2.
Qed.

Lemma populate_lookup name st k :
  iconCache (populate name st) !! k
  = match iconCache st !! k with
    | Some c => Some c
    | None =>
        if decide (k = name ∧ name ∉ objectPrototypeKeys)
        then Some (mkComponent (dynamicCalls st) (dynamicIconImports !! name))
        else None
    end.
Proof.
  unfold populate. destruct (cacheRead st name) as [r|] eqn:Hn.
  - destruct (iconCache st !! k) eqn:Hk; [done|].
    case_decide as Hkn; [|done]. destruct Hkn as [-> Hp].
    assert (cacheRead st name = None) by by apply cacheRead_None.
    congruence.
  - apply cacheRead_None in Hn as [Hn Hp]. cbn.
    destruct (decide (k = name)) as [->|Hne].
    + rewrite lookup_insert_eq, Hn. by rewrite decide_True.
    + rewrite lookup_insert_ne by done.
      destruct (iconCache st !! k); [done|].
      rewrite decide_False; [done|]. by intros [? _].
Qed.

Lemma populate_keeps name st k (c : Component loader) :
  iconCache st !! k = Some c → iconCache (populate name st) !! k = Some c.
Proof. intros Hk. by rewrite populate_lookup, Hk. Qed.

Lemma populate_cached name st (c : Component loader) :
  iconCache st !! name = Some c → populate name st = st.
Proof. intros Hc. unfold populate. by rewrite (cacheRead_own _ _ _ Hc). Qed.

Lemma populate_inherited name st :
  name ∈ objectPrototypeKeys → populate name st = st.
Proof.
  intros Hp. unfold populate.
  destruct (cacheRead st name) eqn:Hr; [done|].
  by apply cacheRead_None in Hr as [_ ?].
Qed.

(** After the [if], [iconCache[name]] is never [undefined]. *)
Lemma populate_is_Some name st : is_Some (cacheRead (populate name st) name).
Proof.
  unfold populate. destruct (cacheRead st name) as [r|] eqn:Hn.
  - rewrite Hn. eauto.
  - unfold cacheRead. cbn. rewrite lookup_insert_eq. eauto.
Qed.

Lemma populate_own name st :
  name ∉ objectPrototypeKeys → is_Some (iconCache (populate name st) !! name).
Proof.
  intros Hp. rewrite populate_lookup.
  destruct (iconCache st !! name); [eauto|].
  rewrite decide_True by done. eauto.
Qed.

Lemma populate_calls name st :
  dynamicCalls (populate name st)
  = match cacheRead st name with
    | Some _ => dynamicCalls st
    | None => S (dynamicCalls st)
    end.
Proof. unfold populate. by destruct (cacheRead st name). Qed.

Lemma populate_calls_le name st :
  (dynamicCalls st ≤ dynamicCalls (populate name st) ≤ S (dynamicCalls st))%nat.
Proof. rewrite populate_calls. destruct (cacheRead st name); lia. Qed.

Lemma populate_counted name st : counted st → counted (populate name st).
Proof.
  unfold counted, populate. intros Hc.
  destruct (cacheRead st name) eqn:Hn; [done|]. cbn.
  apply cacheRead_None in Hn as [Hn _].
  rewrite map_size_insert_None by done. by rewrite Hc.
Qed.

Lemma foldl_populate_keeps names st k (c : Component loader) :
  iconCache st !! k = Some c →
  iconCache (foldl (λ st name, populate name st) st names) !! k = Some c.
Proof.
  revert st. induction names as [|name names IH]; intros st Hk; [done|].
  cbn. apply IH. by apply populate_keeps.
Qed.

Lemma foldl_populate_counted names st :
  counted st → counted (foldl (λ st name, populate name st) st names).
Proof.
  revert st. induction names as [|name names IH]; intros st Hc; [done|].
  cbn. apply IH. by apply populate_counted.
Qed.

Lemma runOp_keeps op st k (c : Component loader) :
  iconCache st !! k = Some c → iconCache (runOp st op) !! k = Some c.
Proof.
  destruct op as [name|]; cbn.
  - apply populate_keeps.
  - apply foldl_populate_keeps.
Qed.

Lemma runOp_counted op st : counted st → counted (runOp st op).
Proof.
  destruct op as [name|]; cbn.
  - apply populate_counted.
  - apply foldl_populate_counted.
Qed.

Lemma runOps_keeps ops st k (c : Component loader) :
  iconCache st !! k = Some c → iconCache (runOps st ops) !! k = Some c.
Proof.
  revert st. induction ops as [|op ops IH]; intros st Hk; [done|].
  cbn. apply IH. by apply runOp_keeps.
Qed.

Lemma runOps_counted ops st : counted st → counted (runOps st ops).
Proof.
  revert st. induction ops as [|op ops IH]; intros st Hc; [done|].
  cbn. apply IH. by apply runOp_counted.
Qed.

(** An inherited name never gets an entry of its own. *)
Lemma foldl_populate_inherited names st k :
  k ∈ objectPrototypeKeys → iconCache st !! k = None →
  iconCache (foldl (λ st name, populate name st) st names) !! k = None.
Proof.
  intros Hp. revert st. induction names as [|name names IH]; intros st Hk; [done|].
  cbn [foldl]. apply IH. rewrite populate_lookup, Hk.
  rewrite decide_False; [done|]. by intros [-> ?].
Qed.

Lemma runOps_inherited ops st k :
  k ∈ objectPrototypeKeys → iconCache st !! k = None →
  iconCache (runOps st ops) !! k = None.
Proof.
  intros Hp. revert st. induction ops as [|op ops IH]; intros st Hk; [done|].
  cbn [runOps foldl]. apply IH. destruct op as [name|]; cbn [runOp Icon snd].
  - by apply (foldl_populate_inherited [name]).
  - by apply foldl_populate_inherited.
Qed.

Lemma Icon_cached name st (c : Component loader) :
  iconCache st !! name = Some c → Icon name st = (Some (FromDynamic c), st).
Proof.
  intros Hc. unfold Icon. rewrite (populate_cached _ _ _ Hc). cbn.
  by rewrite (cacheRead_own _ _ _ Hc).
Qed.

Lemma Icon_inherited name st :
  iconCache st !! name = None → name ∈ objectPrototypeKeys →
  Icon name st = (Some (Inherited name), st).
Proof.
  intros Hc Hp. unfold Icon. rewrite (populate_inherited _ _ Hp). cbn.
  by rewrite cacheRead_inherited.
Qed.

(** A second resolve, after anything else, gives what the first gave and
    changes nothing. *)
Lemma Icon_again name st ops :
  Icon name (runOps (Icon name st).2 ops)
  = ((Icon name st).1, runOps (Icon name st).2 ops).
Proof.
  destruct (iconCache (populate name st) !! name) as [c|] eqn:Hc.
  - cbn [Icon fst snd]. rewrite (cacheRead_own _ _ _ Hc).
    apply Icon_cached. by apply runOps_keeps.
  - assert (Hp : name ∈ objectPrototypeKeys).
    { destruct (decide (name ∈ objectPrototypeKeys)) as [|Hn]; [done|].
      apply (populate_own name st) in Hn as [c' Hc']. congruence. }
    cbn [Icon fst snd]. rewrite (cacheRead_inherited _ _ Hc Hp).
    apply Icon_inherited; [|done]. by apply runOps_inherited.
Qed.

(** C10, as the code has it: for a name that no object inherits from
    [Object.prototype] (every icon name of the registry type is one), a
    resolve ([Icon]) returns a component made by [dynamic] that is then the
    cache entry of that name, and it calls [dynamic] only when there was no
    entry.  For every name, resolving it again after any further renders and
    preloads returns the same value and leaves the store, with its count of
    [dynamic] calls, as it is.  An entry, once there, is the same after any
    sequence of renders and preloads, and after the preload in particular.
    From the empty store on, [dynamic] has been called once per cached
    name. *)
Theorem iconCache_populated_once (st : IconStore loader) (name : string)
    (ops : list StoreOp) (Hown : name ∉ objectPrototypeKeys) :
  (∃ c, (Icon name st).1 = Some (FromDynamic c)
        ∧ iconCache (Icon name st).2 !! name = Some c)
  ∧ dynamicCalls (Icon name st).2
    = match iconCache st !! name with
      | Some _ => dynamicCalls st
      | None => S (dynamicCalls st)
      end
  ∧ (∀ name', Icon name' (runOps (Icon name' st).2 ops)
              = ((Icon name' st).1, runOps (Icon name' st).2 ops))
  ∧ (∀ k c, iconCache st !! k = Some c →
            iconCache (runOps st ops) !! k = Some c)
  ∧ (∀ k c, iconCache st !! k = Some c → iconCache (preload st) !! k = Some c)
  ∧ dynamicCalls (runOps emptyStore ops) = size (iconCache (runOps emptyStore ops)).
Proof.
  split_and!.
  - destruct (populate_own name st Hown) as [c Hc]. exists c.
    split; [|exact Hc]. cbn [Icon fst]. by apply cacheRead_own.
  - cbn [Icon snd]. rewrite populate_calls. unfold cacheRead.
    destruct (iconCache st !! name); [done|].
    by rewrite bool_decide_eq_false_2.
  - intros name'. apply Icon_again.
  - intros k c. apply runOps_keeps.
  - intros k c. apply foldl_populate_keeps.
  - apply runOps_counted. unfold counted. cbn. by rewrite map_size_empty.
Qed.

(** ** The rendered tree and the outside click *)

(** Induction on a tree, with the property at hand for every child. *)
Lemma Node_nested_ind (P : Node → Prop)
    (HEl : ∀ tag className site disabled_ children,
        Forall P children → P (El tag className site disabled_ children))
    (HIcon : ∀ name props, P (IconEl name props))
    (HText : ∀ s, P (Text s))
    (HExpr : ∀ v, P (Expr v)) :
  ∀ n, P n.
Proof.
  fix IH 1. intros [tag className site disabled_ children|name props|s|v].
  - apply HEl.
    induction children as [|c children IHc]; constructor; [apply IH|apply IHc].
  - apply HIcon.
  - apply HText.
  - apply HExpr.
Qed.

Lemma classesOf_El tag className site disabled_ children :
  classesOf (El tag className site disabled_ children)
  = (className ++ concat (map classesOf children))%list.
Proof. reflexivity. Qed.

Lemma sitesOf_El tag className site disabled_ children :
  sitesOf (El tag className site disabled_ children)
  = (match site with
     | Some t => if disabled_ then [] else [t]
     | None => []
     end ++ concat (map sitesOf children))%list.
Proof. reflexivity. Qed.

(** A class that is on no element of a tree selects nothing in it. *)
Lemma querySelectorFrom_no_class cls n :
  cls ∉ classesOf n → ∀ here, querySelectorFrom cls here n = None.
Proof.
  induction n as [tag className site disabled_ children IH| | |]
    using Node_nested_ind; intros Hcls here; try reflexivity.
  rewrite classesOf_El in Hcls. apply not_elem_of_app in Hcls as [Hhere Hch].
  cbn. rewrite bool_decide_eq_false_2 by done.
  generalize 0%nat.
  induction IH as [|c children Hc _ IHch]; intros i; [done|].
  cbn in Hch. apply not_elem_of_app in Hch as [Hc1 Hch1].
  rewrite (Hc Hc1). by apply IHch.
Qed.

Lemma classesOf_icon_buttons s names :
  concat (map classesOf (map (renderIconButton s) names)) = [].
Proof.
  induction names as [|name names IH]; [done|].
  cbn [map concat]. rewrite IH, app_nil_r.
  unfold renderIconButton, button, when.
  by destruct (strictEqString (get (value s) "name") name).
Qed.

Lemma classesOf_renderPicker s : classesOf (renderPicker s) = [].
Proof.
  unfold renderPicker, div. rewrite classesOf_El, map_app, concat_app.
  cbn [map concat app classesOf el button input fixedIcon].
  rewrite !app_nil_r.
  destruct (0 <? length (paginatedIcons (debouncedSearch s) (page s)))%nat.
  - rewrite classesOf_icon_buttons.
    by destruct (1 <? totalPages (debouncedSearch s))%nat.
  - by destruct (1 <? totalPages (debouncedSearch s))%nat.
Qed.

(** The class names that the field renders. *)
Lemma classesOf_render s :
  classesOf (render s)
  = (["w-full"; "field-type"; "text"; "field-label"]
     ++ (if required then ["required"] else [])
     ++ (if showConfig s
         then ["icon-config-panel__reset"; "icon-config-panel__confirm"]
         else []))%list.
Proof.
  unfold render, div. rewrite classesOf_El. cbn [map concat].
  rewrite !classesOf_El, !map_app, !concat_app.
  assert (Hcontrol : classesOf (renderControl s) = []).
  { unfold renderControl. by destruct (truthy (get (value s) "name")). }
  cbn [map concat]. rewrite Hcontrol.
  assert (Hpicker : concat (map classesOf (when (fieldIsFocused s) (renderPicker s))) = []).
  { destruct (fieldIsFocused s); cbn [when map concat]; [|done].
    by rewrite classesOf_renderPicker. }
  rewrite Hpicker.
  destruct required, (showConfig s), (showResetConfirm s); reflexivity.
Qed.

Lemma querySelector_render_modal s :
  querySelector (render s) "icon-picker-modal" = None.
Proof.
  apply querySelectorFrom_no_class. rewrite classesOf_render.
  destruct required, (showConfig s);
    apply (bool_decide_unpack _); vm_compute; exact I.
Qed.

Lemma handleClickOutside_closed document target s :
  fieldIsFocused s = false → handleClickOutside document target s = s.
Proof.
  intros Hf. unfold handleClickOutside. rewrite Hf. cbn.
  by repeat case_match.
Qed.

(** The listener does nothing in a document none of whose elements has the
    class [icon-picker-modal]; the field itself renders no such element. *)
Lemma handleClickOutside_no_modal document target s :
  "icon-picker-modal" ∉ classesOf document →
  handleClickOutside document target s = s.
Proof.
  intros Hno. unfold handleClickOutside, querySelector.
  by rewrite (querySelectorFrom_no_class _ _ Hno).
Qed.

Lemma handleClickOutside_render target s :
  handleClickOutside (render s) target s = s.
Proof.
  unfold handleClickOutside. by rewrite querySelector_render_modal.
Qed.

(** What the listener does when both elements are found. *)
Lemma handleClickOutside_cases document target s :
  handleClickOutside document target s = s
  ∨ (fieldIsFocused s = true
     ∧ handleClickOutside document target s = setSearch "" (setFieldIsFocused false s)).
Proof.
  unfold handleClickOutside. repeat case_match; auto.
  right. split; [|done]. by destruct (fieldIsFocused s).
Qed.

(** ** Handler sites and the reset paths *)

Lemma sitesOf_render s :
  sitesOf (render s)
  = ([Control; NameInput; ConfigToggle]
     ++ (if showConfig s then sitesOf renderConfigPanel else [])
     ++ (if showResetConfirm s then sitesOf renderResetConfirm else [])
     ++ (if fieldIsFocused s then sitesOf (renderPicker s) else []))%list.
Proof.
  unfold render, div. rewrite sitesOf_El. cbn [map concat].
  rewrite !sitesOf_El.
  assert (Hlabel : concat (map sitesOf
            ([Text label] ++ when required (El "span" ["required"] None false [Text "*"])))
          = []) by by destruct required.
  rewrite Hlabel, !map_app, !concat_app.
  assert (Hcontrol : sitesOf (renderControl s) = [Control]).
  { unfold renderControl. by destruct (truthy (get (value s) "name")). }
  cbn [map concat]. rewrite Hcontrol.
  destruct (showConfig s), (showResetConfirm s), (fieldIsFocused s);
    cbn [when map concat app]; by rewrite ?app_nil_r.
Qed.

(** The [icon-config-panel__confirm] button is there whenever the panel is
    open, and its handler is [handleResetToDefaults]. *)
Lemma PanelConfirm_dispatch s :
  showConfig s = true → dispatch (Click PanelConfirm) s = handleResetToDefaults s.
Proof.
  intros Hc. unfold dispatch. rewrite bool_decide_eq_true_2; [done|].
  rewrite sitesOf_render, Hc. cbn [siteOf].
  apply elem_of_app. right. apply elem_of_app. left.
  apply (bool_decide_unpack _). vm_compute. exact I.
Qed.

(** The two ways out of a pending confirmation. *)
Lemma reset_dialog_dispatch s :
  showResetConfirm s = true →
  dispatch (Click DialogConfirm) s = handleResetToDefaults s
  ∧ dispatch (Click DialogCancel) s = setShowResetConfirm false s
  ∧ dispatch (Click DialogClose) s = setShowResetConfirm false s.
Proof.
  intros Hc. unfold dispatch.
  rewrite !bool_decide_eq_true_2; [done|..];
    rewrite sitesOf_render, Hc; cbn [siteOf];
    apply elem_of_app; right; apply elem_of_app; right;
    apply elem_of_app; left; apply (bool_decide_unpack _); vm_compute; exact I.
Qed.

(** An input counted by [invokesReset] runs [handleResetToDefaults]. *)
Lemma invokesReset_step s i :
  invokesReset s i = true → step s i = handleResetToDefaults s.
Proof.
  destruct i as [[[]| | | |]| |]; try discriminate; cbn [invokesReset step];
    intros Hin; unfold dispatch; cbn [siteOf]; by rewrite Hin.
Qed.

(** ** Closing the picker *)

Lemma search_setSearch x s : search (setSearch x s) = x.
Proof. unfold setSearch. by case_decide. Qed.

Lemma page_setSearch x s : page (setSearch x s) = page s.
Proof. unfold setSearch. by case_decide. Qed.



(** ** What is rendered where *)

Lemma sitesOf_icon_buttons s names :
  concat (map sitesOf (map (renderIconButton s) names)) = map IconButton names.
Proof.
  induction names as [|name names IH]; [done|].
  cbn [map concat]. rewrite IH.
  unfold renderIconButton, button, when.
  by destruct (strictEqString (get (value s) "name") name).
Qed.

Lemma sitesOf_renderPicker s :
  sitesOf (renderPicker s)
  = ([PickerClose; SearchInput]
     ++ map IconButton (paginatedIcons (debouncedSearch s) (page s))
     ++ (if (1 <? totalPages (debouncedSearch s))%nat
         then (if (page s =? 0)%nat then [] else [PrevPage])
              ++ (if (page s =? totalPages (debouncedSearch s) - 1)%nat
                  then [] else [NextPage])
         else []))%list.
Proof.
  unfold renderPicker, div. rewrite sitesOf_El, map_app, concat_app.
  cbn [map concat app sitesOf el button input fixedIcon].
  rewrite !app_nil_r.
  assert (Hgrid :
    concat (map sitesOf
      (if (0 <? length (paginatedIcons (debouncedSearch s) (page s)))%nat
       then map (renderIconButton s) (paginatedIcons (debouncedSearch s) (page s))
       else [El "div" [] None false
               [Text "No icons found matching "; Expr (JString (debouncedSearch s))]]))
    = map IconButton (paginatedIcons (debouncedSearch s) (page s))).
  { destruct (paginatedIcons (debouncedSearch s) (page s)) as [|x l] eqn:Hl.
    - reflexivity.
    - cbn [length Nat.ltb Nat.leb]. apply sitesOf_icon_buttons. }
  rewrite Hgrid. do 2 f_equal. f_equal.
  destruct (1 <? totalPages (debouncedSearch s))%nat; [|done].
  cbn [when map concat sitesOf app].
  destruct (page s =? 0)%nat,
    (page s =? totalPages (debouncedSearch s) - 1)%nat; reflexivity.
Qed.

Lemma sitesOf_renderConfigPanel :
  sitesOf renderConfigPanel
  = ([ConfigClose] ++ map SizePreset (seq 0 7) ++ [SizeInput]
     ++ map ColorPreset (seq 0 28) ++ [ColorInput]
     ++ map StrokePreset (seq 0 6) ++ [StrokeInput]
     ++ [AbsoluteStrokeCheckbox; PanelRestore; PanelConfirm])%list.
Proof. vm_compute. reflexivity. Qed.

Lemma sitesOf_renderResetConfirm :
  sitesOf renderResetConfirm = [DialogClose; DialogCancel; DialogConfirm].
Proof. reflexivity. Qed.

Lemma filteredIcons_sublist debounced :
  filteredIcons debounced `sublist_of` allIcons.
Proof.
  unfold filteredIcons.
  destruct (negb (truthy (JString debounced))); [done|].
  apply sublist_List_filter.
Qed.

Lemma paginatedIcons_sublist debounced pg :
  paginatedIcons debounced pg `sublist_of` filteredIcons debounced.
Proof.
  unfold paginatedIcons, slice.
  etrans; [apply sublist_take|apply sublist_drop].
Qed.

(** A site is not in a list built from other constructors. *)
Ltac site_absent :=
  try match goal with |- ?P → False => change (¬ P) end;
  rewrite ?not_elem_of_app, ?not_elem_of_cons; repeat split;
  try discriminate; try apply not_elem_of_nil;
  try (intros (?&?&?)%list_elem_of_fmap; discriminate).

(** The sites of the picker are on the page exactly when it is open. *)
Lemma picker_site_rendered s t :
  pickerSite t = true →
  (t ∈ sitesOf (render s)
   ↔ fieldIsFocused s = true ∧ t ∈ sitesOf (renderPicker s)).
Proof.
  intros Ht. rewrite sitesOf_render, !elem_of_app.
  assert (H1 : t ∉ [Control; NameInput; ConfigToggle])
    by (destruct t; try discriminate Ht; site_absent).
  assert (H2 : t ∉ sitesOf renderConfigPanel)
    by (rewrite sitesOf_renderConfigPanel;
        destruct t; try discriminate Ht; site_absent).
  assert (H3 : t ∉ sitesOf renderResetConfirm)
    by (rewrite sitesOf_renderResetConfirm;
        destruct t; try discriminate Ht; site_absent).
  split.
  - intros [Hin|[Hin|[Hin|Hin]]].
    + done.
    + destruct (showConfig s); [done|by apply elem_of_nil in Hin].
    + destruct (showResetConfirm s); [done|by apply elem_of_nil in Hin].
    + destruct (fieldIsFocused s); [done|by apply elem_of_nil in Hin].
  - intros [-> Hin]. do 3 right. exact Hin.
Qed.

Lemma IconButton_rendered_iff s iconName :
  IconButton iconName ∈ sitesOf (render s)
  ↔ fieldIsFocused s = true
    ∧ iconName ∈ paginatedIcons (debouncedSearch s) (page s).
Proof.
  rewrite picker_site_rendered by done.
  rewrite sitesOf_renderPicker, !elem_of_app, list_elem_of_fmap.
  split.
  - intros [Hf [Hin|[(n & Heq & Hin)|Hin]]].
    + exfalso. revert Hin. site_absent.
    + by simplify_eq.
    + exfalso. revert Hin.
      destruct (1 <? totalPages (debouncedSearch s))%nat, (page s =? 0)%nat,
        (page s =? totalPages (debouncedSearch s) - 1)%nat;
        cbn [app]; site_absent.
  - intros [Hf Hin]. split; [done|]. right. left. eauto.
Qed.

Lemma IconButton_registered s iconName :
  IconButton iconName ∈ sitesOf (render s) →
  is_Some (dynamicIconImports !! iconName).
Proof.
  intros [_ Hin]%IconButton_rendered_iff. apply elem_of_allIcons.
  eapply elem_of_sublist; [|apply filteredIcons_sublist].
  eapply elem_of_sublist; [exact Hin|apply paginatedIcons_sublist].
Qed.

(** X7: an icon button is on the page exactly when the picker is open and
    its name is on the current page of the filtered list, and then the name
    is a registered one and, unless the search text is empty, matches it. *)
Theorem IconButton_rendered (s : State) (iconName : string) :
  (IconButton iconName ∈ sitesOf (render s)
   ↔ fieldIsFocused s = true
     ∧ iconName ∈ paginatedIcons (debouncedSearch s) (page s))
  ∧ (IconButton iconName ∈ sitesOf (render s) →
     is_Some (dynamicIconImports !! iconName)
     ∧ (debouncedSearch s = ""
        ∨ includes (toLowerCase iconName) (toLowerCase (debouncedSearch s)) = true)).
Proof.
  split; [apply IconButton_rendered_iff|].
  intros Hin. split; [by eapply IconButton_registered|].
  apply IconButton_rendered_iff in Hin as [_ Hin].
  pose proof (elem_of_sublist _ _ _ Hin
                (paginatedIcons_sublist (debouncedSearch s) (page s))) as Hf.
  unfold filteredIcons in Hf.
  destruct (truthy (JString (debouncedSearch s))) eqn:Ht; cbn [negb] in Hf.
  - right. by apply list_elem_of_In, filter_In in Hf as [_ Hf].
  - left. by apply truthy_JString.
Qed.

(** ** Paging *)

Lemma debouncedSearch_setSearch x s :
  debouncedSearch (setSearch x s) = debouncedSearch s.
Proof. unfold setSearch. by case_decide. Qed.

(** Case analysis on the event and its site, down to the setters. *)
Ltac handle_cases e :=
  destruct e as [[]|[] ?|[] ? ?|[]|[]]; cbn [handle];
  unfold handleConfigChange, handleIconSelect, handleResetToDefaults;
  repeat case_match.

(** Only the two paging buttons change the page index, and no handler
    changes the debounced text. *)
Lemma handle_page e s :
  e ≠ Click PrevPage → e ≠ Click NextPage → page (handle e s) = page s.
Proof.
  intros Hp Hn. handle_cases e; rewrite ?page_setSearch; done.
Qed.

Lemma handle_debouncedSearch e s :
  debouncedSearch (handle e s) = debouncedSearch s.
Proof. handle_cases e; rewrite ?debouncedSearch_setSearch; done. Qed.

Lemma handle_fieldIsFocused_paging s :
  fieldIsFocused (handle (Click NextPage) s) = fieldIsFocused s
  ∧ fieldIsFocused (handle (Click PrevPage) s) = fieldIsFocused s.
Proof. done. Qed.

(** The two paging buttons among the sites of the pagination row. *)
Lemma paging_row_sites (T p : nat) (t : Site) :
  t = PrevPage ∨ t = NextPage →
  t ∈ (if (1 <? T)%nat
       then ((if (p =? 0)%nat then [] else [PrevPage])
             ++ (if (p =? T - 1)%nat then [] else [NextPage]))%list
       else [])
  ↔ (1 < T)%nat ∧ (if bool_decide (t = PrevPage) then p ≠ 0%nat else p ≠ (T - 1)%nat).
Proof.
  intros Ht.
  destruct (Nat.ltb_spec 1 T) as [Hlt|Hge];
    destruct (Nat.eqb_spec p 0) as [H0|H0];
    destruct (Nat.eqb_spec p (T - 1)) as [Hl|Hl];
    destruct Ht as [-> | ->]; cbn [app];
    rewrite ?elem_of_cons, ?elem_of_nil;
    (split;
     [ intros H; repeat (destruct H as [H|H]);
       try discriminate H; try done; by split
     | intros [H1 H2]; try lia; try done; auto ]).
Qed.

Lemma paging_site_rendered s t :
  t = PrevPage ∨ t = NextPage →
  t ∈ sitesOf (render s)
  ↔ fieldIsFocused s = true
    ∧ (1 < totalPages (debouncedSearch s))%nat
    ∧ (if bool_decide (t = PrevPage) then page s ≠ 0%nat
       else page s ≠ (totalPages (debouncedSearch s) - 1)%nat).
Proof.
  intros Ht. rewrite picker_site_rendered by by destruct Ht as [-> | ->].
  rewrite sitesOf_renderPicker, !elem_of_app, list_elem_of_fmap.
  rewrite (paging_row_sites _ _ _ Ht).
  split.
  - intros [Hf [Hin|[(n & Heq & Hin)|Hin]]].
    + exfalso. revert Hin. destruct Ht as [-> | ->]; site_absent.
    + destruct Ht as [-> | ->]; discriminate.
    + done.
  - intros [Hf Hin]. split; [done|]. by do 2 right.
Qed.

Lemma NextPage_rendered s :
  NextPage ∈ sitesOf (render s)
  ↔ fieldIsFocused s = true
    ∧ (1 < totalPages (debouncedSearch s))%nat
    ∧ page s ≠ (totalPages (debouncedSearch s) - 1)%nat.
Proof. rewrite paging_site_rendered by auto. done. Qed.

Lemma PrevPage_rendered s :
  PrevPage ∈ sitesOf (render s)
  ↔ fieldIsFocused s = true
    ∧ (1 < totalPages (debouncedSearch s))%nat
    ∧ page s ≠ 0%nat.
Proof. rewrite paging_site_rendered by auto. done. Qed.

Lemma page_dispatch_NextPage s :
  page (dispatch (Click NextPage) s)
  = if bool_decide (NextPage ∈ sitesOf (render s))
    then (totalPages (debouncedSearch s) - 1) `min` (page s + 1)
    else page s.
Proof. unfold dispatch. cbn [siteOf]. by case_bool_decide. Qed.

Lemma page_dispatch_PrevPage s :
  page (dispatch (Click PrevPage) s)
  = if bool_decide (PrevPage ∈ sitesOf (render s))
    then 0 `max` (page s - 1)
    else page s.
Proof. unfold dispatch. cbn [siteOf]. by case_bool_decide. Qed.

(** X2: with the picker open on an existing page, "Next" goes to the next
    page and stops at the last one, "Previous" goes back one page and stops
    at page 0, the index stays that of an existing page, and "Next" followed
    by "Previous" comes back to the page it started from unless that was the
    last. *)
Theorem paging_stays_in_range (s : State)
    (Hopen : fieldIsFocused s = true)
    (Hrange : (page s < totalPages (debouncedSearch s))%nat) :
  page (dispatch (Click NextPage) s)
  = ((page s + 1) `min` (totalPages (debouncedSearch s) - 1))%nat
  ∧ page (dispatch (Click PrevPage) s) = (page s - 1)%nat
  ∧ (page (dispatch (Click NextPage) s) < totalPages (debouncedSearch s))%nat
  ∧ ((S (page s) < totalPages (debouncedSearch s))%nat →
     page (dispatch (Click PrevPage) (dispatch (Click NextPage) s)) = page s).
Proof.
  assert (Hnext : page (dispatch (Click NextPage) s)
    = ((page s + 1) `min` (totalPages (debouncedSearch s) - 1))%nat).
  { rewrite page_dispatch_NextPage. case_bool_decide as Hr.
    - lia.
    - rewrite NextPage_rendered in Hr.
      assert (¬ ((1 < totalPages (debouncedSearch s))%nat
                 ∧ page s ≠ (totalPages (debouncedSearch s) - 1)%nat))
        by (intros [??]; by apply Hr).
      lia. }
  split_and!.
  - exact Hnext.
  - rewrite page_dispatch_PrevPage. case_bool_decide as Hr.
    + lia.
    + rewrite PrevPage_rendered in Hr.
      assert (¬ ((1 < totalPages (debouncedSearch s))%nat ∧ page s ≠ 0%nat))
        by (intros [??]; by apply Hr).
      lia.
  - lia.
  - intros Hlt. rewrite page_dispatch_PrevPage.
    assert (Hd : debouncedSearch (dispatch (Click NextPage) s) = debouncedSearch s).
    { unfold dispatch. case_bool_decide; [apply handle_debouncedSearch|done]. }
    assert (Hf : fieldIsFocused (dispatch (Click NextPage) s) = true).
    { unfold dispatch. by case_bool_decide. }
    rewrite bool_decide_eq_true_2.
    + rewrite Hnext. lia.
    + apply PrevPage_rendered. rewrite Hd, Hnext. split_and!; [done|lia|lia].
Qed.

(** ** Invariants of a mounted field *)

(** A property kept by every step holds after every run. *)
Lemma run_invariant (P : State → Prop) :
  (∀ s i, P s → P (step s i)) → ∀ inputs s, P s → P (run s inputs).
Proof.
  intros Hstep inputs. induction inputs as [|i inputs IH]; intros s Hs; [done|].
  cbn. apply IH, Hstep, Hs.
Qed.

Lemma pageInRange_step s i : pageInRange s → pageInRange (step s i).
Proof.
  unfold pageInRange. intros Hs. destruct i as [e|document target|]; cbn [step].
  - unfold dispatch. case_bool_decide as Hr; [|done].
    rewrite handle_debouncedSearch.
    destruct (decide (e = Click PrevPage)) as [->|Hp];
      [|destruct (decide (e = Click NextPage)) as [->|Hn]].
    + change (page (handle (Click PrevPage) s)) with (0 `max` (page s - 1)).
      lia.
    + cbn [siteOf] in Hr. apply NextPage_rendered in Hr as (_ & Hlt & _).
      change (page (handle (Click NextPage) s))
        with ((totalPages (debouncedSearch s) - 1) `min` (page s + 1)).
      lia.
    + by rewrite handle_page.
  - destruct (handleClickOutside_cases document target s) as [->|[_ ->]]; [done|].
    by rewrite page_setSearch, debouncedSearch_setSearch.
  - rewrite timerFires_unfold. destruct (timer s) as [v|]; [|done].
    case_decide as Hv; cbn; [by rewrite <- Hv|by left].
Qed.

(** On a page in range the grid is empty only if the filtered list is. *)
Lemma pageInRange_grid s :
  pageInRange s →
  paginatedIcons (debouncedSearch s) (page s) = []
  ↔ filteredIcons (debouncedSearch s) = [].
Proof.
  intros Hs. rewrite <- !length_zero_iff_nil.
  unfold paginatedIcons. rewrite length_slice.
  pose proof (Math_ceil_div_spec (length (filteredIcons (debouncedSearch s)))
                ICONS_PER_PAGE ltac:(unfold ICONS_PER_PAGE; lia)) as [Hle Hlt].
  fold (totalPages (debouncedSearch s)) in Hle, Hlt.
  unfold pageInRange in Hs. unfold ICONS_PER_PAGE in *. nia.
Qed.

Lemma page_timerCallback s : page (timerCallback s) = page s.
Proof. unfold timerCallback. by destruct (timer s). Qed.

(** X1: whatever the user does after the field is mounted, in the state in
    which the next input is handled the page index is 0 or the index of an
    existing page of the current filtered list, so the grid drawn from that
    state is empty only when the filtered list is.  The same holds of every
    state committed on the way, with one exception: the commit of the
    debounce timer callback, when it changes the debounced text, still has
    the old page index, until the page reset effect has run. *)
Theorem page_always_in_range (hv : option (gmap string jsval))
    (inputs : list Input) (i : Input) (c : State) :
  pageInRange (run (initialState hv) inputs)
  ∧ (paginatedIcons (debouncedSearch (run (initialState hv) inputs))
       (page (run (initialState hv) inputs)) = []
     ↔ filteredIcons (debouncedSearch (run (initialState hv) inputs)) = [])
  ∧ (c ∈ commits (run (initialState hv) inputs) i →
     pageInRange c
     ∨ (i = Timeout
        ∧ c = timerCallback (run (initialState hv) inputs)
        ∧ debouncedSearch c ≠ debouncedSearch (run (initialState hv) inputs))).
Proof.
  assert (Hr : pageInRange (run (initialState hv) inputs)).
  { apply run_invariant; [apply pageInRange_step|]. by left. }
  split_and!; [exact Hr|by apply pageInRange_grid|].
  set (s := run (initialState hv) inputs) in *.
  destruct i as [e|document target|]; cbn [commits];
    rewrite ?elem_of_cons, ?elem_of_nil.
  - intros [->|[]]. left. by apply pageInRange_step.
  - intros [->|[]]. left. by apply pageInRange_step.
  - intros [->|[->|[]]].
    + destruct (decide (debouncedSearch (timerCallback s) = debouncedSearch s))
        as [Heq|Hne]; [left|by right].
      unfold pageInRange. by rewrite page_timerCallback, Heq.
    + left. by apply (pageInRange_step s Timeout).
Qed.

Lemma debounceSettled_setSearch x s :
  debounceSettled s → debounceSettled (setSearch x s).
Proof. unfold setSearch. by case_decide. Qed.

Lemma debounceSettled_handle e s :
  debounceSettled s → debounceSettled (handle e s).
Proof.
  intros Hs. handle_cases e; try done; by apply debounceSettled_setSearch.
Qed.

Lemma debounceSettled_step s i : debounceSettled s → debounceSettled (step s i).
Proof.
  intros Hs. destruct i as [e|document target|]; cbn [step].
  - unfold dispatch. case_bool_decide; [by apply debounceSettled_handle|done].
  - destruct (handleClickOutside_cases document target s) as [->|[_ ->]]; [done|].
    by apply debounceSettled_setSearch.
  - rewrite timerFires_unfold. unfold debounceSettled in *.
    destruct (timer s) as [v|] eqn:Ht; [|by rewrite Ht].
    case_decide; exact Hs.
Qed.

(** X3: whatever the user does after the field is mounted, a pending
    debounce timer holds the current search text, and when no timer is
    pending the debounced text is the search text: the filter never ends up
    on a text that is not the one in the search box. *)
Theorem debounce_follows_search (hv : option (gmap string jsval))
    (inputs : list Input) :
  match timer (run (initialState hv) inputs) with
  | Some v => v = search (run (initialState hv) inputs)
  | None => debouncedSearch (run (initialState hv) inputs)
            = search (run (initialState hv) inputs)
  end.
Proof.
  apply (run_invariant debounceSettled); [apply debounceSettled_step|done].
Qed.

Lemma SearchInput_rendered s :
  fieldIsFocused s = true → SearchInput ∈ sitesOf (render s).
Proof.
  intros Hf. apply picker_site_rendered; [done|]. split; [done|].
  rewrite sitesOf_renderPicker. apply elem_of_app. left.
  apply elem_of_cons. right. apply elem_of_cons. by left.
Qed.

(** X4: with the picker open, typing a text and letting the debounce timer
    run out makes that text the debounced one with no timer left; the page
    index goes to 0 if the text differs from the one debounced before, and
    stays otherwise. *)
Theorem typed_text_is_debounced (hv : option (gmap string jsval))
    (inputs : list Input) (text : string) (checked : bool)
    (Hopen : fieldIsFocused (run (initialState hv) inputs) = true) :
  search (run (run (initialState hv) inputs)
            [Dom (Change SearchInput text checked); Timeout]) = text
  ∧ debouncedSearch (run (run (initialState hv) inputs)
                       [Dom (Change SearchInput text checked); Timeout]) = text
  ∧ timer (run (run (initialState hv) inputs)
             [Dom (Change SearchInput text checked); Timeout]) = None
  ∧ page (run (run (initialState hv) inputs)
            [Dom (Change SearchInput text checked); Timeout])
    = if decide (debouncedSearch (run (initialState hv) inputs) = text)
      then page (run (initialState hv) inputs) else 0%nat.
Proof.
  assert (Hs : debounceSettled (run (initialState hv) inputs))
    by (apply run_invariant; [apply debounceSettled_step|done]).
  set (s := run (initialState hv) inputs) in *.
  cbn [run foldl step]. unfold dispatch. cbn [siteOf].
  rewrite bool_decide_eq_true_2 by by apply SearchInput_rendered.
  cbn [handle].
  assert (Hsettled : debounceSettled (setSearch text s))
    by by apply debounceSettled_setSearch.
  pose proof (search_setSearch text s) as Hsearch.
  pose proof (page_setSearch text s) as Hpage.
  pose proof (debouncedSearch_setSearch text s) as Hdeb.
  unfold debounceSettled in Hsettled. rewrite timerFires_unfold.
  destruct (timer (setSearch text s)) as [v|] eqn:Ht.
  - rewrite Hsettled, Hsearch, Hdeb.
    case_decide; cbn; by rewrite ?Hsearch, ?Hpage.
  - rewrite Ht, Hsearch, Hpage. rewrite Hsearch in Hsettled.
    rewrite <- Hdeb, Hsettled. by rewrite decide_True.
Qed.

(** ** Who writes the value *)

Lemma handle_hostValue e s :
  writesValue (Dom e) = false → hostValue (handle e s) = hostValue s.
Proof.
  intros Hw. handle_cases e; try discriminate Hw;
    rewrite ?hostValue_setSearch; done.
Qed.

(** X12: opening and closing the picker or the panel, typing in the search
    box, paging, hovering, asking for and cancelling the confirmation, a
    mousedown anywhere and the debounce timer never write the host value:
    after any run without a click on a preset, an icon or a reset button
    and without a change of a configuration input, the host value is what
    it was, and a field mounted on an empty value leaves it empty. *)
Theorem only_writers_write (s : State) (inputs : list Input)
    (Hnone : forallb (λ i, negb (writesValue i)) inputs = true) :
  hostValue (run s inputs) = hostValue s.
Proof.
  revert s. induction inputs as [|i inputs IH]; intros s; [done|].
  cbn in Hnone. apply andb_prop in Hnone as [Hi Hrest].
  apply negb_true_iff in Hi.
  cbn [run foldl]. fold (run (step s i) inputs). rewrite (IH Hrest).
  destruct i as [e|document target|]; cbn [step].
  - unfold dispatch. case_bool_decide; [by apply handle_hostValue|done].
  - destruct (handleClickOutside_cases document target s) as [->|[_ ->]]; [done|].
    by rewrite hostValue_setSearch.
  - rewrite timerFires_unfold. destruct (timer s); [|done]. by case_decide.
Qed.

(** ** The shape of the value *)

Lemma lookup_mkConfig n sz col sw a k :
  mkConfig n sz col sw a !! k
  = if decide (k = "name") then Some (JString n)
    else if decide (k = "size") then Some (JNumber sz)
    else if decide (k = "color") then Some (JString col)
    else if decide (k = "strokeWidth") then Some (JNumber sw)
    else if decide (k = "absoluteStrokeWidth") then Some (JBool a)
    else None.
Proof.
  unfold mkConfig.
  repeat (case_decide; [subst k|]);
    repeat first [ rewrite lookup_insert_eq
                 | rewrite lookup_insert_ne by done
                 | rewrite lookup_singleton_eq
                 | rewrite lookup_singleton_ne by done ];
    done.
Qed.

(** Two objects with the same five fields are the same object. *)
Ltac mkConfig_eq :=
  apply map_eq; intros ?k; rewrite ?lookup_insert, !lookup_mkConfig;
  repeat case_decide; simplify_eq; done.

Lemma insert_name_mkConfig n' n sz col sw a :
  <["name" := JString n']> (mkConfig n sz col sw a) = mkConfig n' sz col sw a.
Proof. mkConfig_eq. Qed.

Lemma insert_size_mkConfig x n sz col sw a :
  <["size" := JNumber x]> (mkConfig n sz col sw a) = mkConfig n x col sw a.
Proof. mkConfig_eq. Qed.

Lemma insert_color_mkConfig x n sz col sw a :
  <["color" := JString x]> (mkConfig n sz col sw a) = mkConfig n sz x sw a.
Proof. mkConfig_eq. Qed.

Lemma insert_strokeWidth_mkConfig x n sz col sw a :
  <["strokeWidth" := JNumber x]> (mkConfig n sz col sw a) = mkConfig n sz col x a.
Proof. mkConfig_eq. Qed.

Lemma insert_absoluteStrokeWidth_mkConfig x n sz col sw a :
  <["absoluteStrokeWidth" := JBool x]> (mkConfig n sz col sw a)
  = mkConfig n sz col sw x.
Proof. mkConfig_eq. Qed.

Lemma reset_mkConfig n sz col sw a :
  <["name" := get (mkConfig n sz col sw a) "name"]> DEFAULT_ICON_CONFIG
  = mkConfig n 24 "currentColor" 2 false.
Proof. rewrite get_mkConfig_name. apply insert_name_mkConfig. Qed.

Lemma wellShaped_handle e s :
  wellShaped (value s) → wellShaped (value (handle e s)).
Proof.
  intros (n & sz & col & sw & a & Hv).
  handle_cases e; rewrite ?value_setSearch;
    first
      [ by (exists n, sz, col, sw, a)
      | change (value (setValue ?v _)) with v ];
    rewrite ?value_setSearch; cbn [value setShowResetConfirm setFieldIsFocused
                                     setValue hostValue default];
    rewrite Hv.
  all: first
    [ rewrite insert_name_mkConfig
    | rewrite insert_size_mkConfig
    | rewrite insert_color_mkConfig
    | rewrite insert_strokeWidth_mkConfig
    | rewrite insert_absoluteStrokeWidth_mkConfig
    | rewrite reset_mkConfig ]; unfold wellShaped; eauto 10.
Qed.

Lemma wellShaped_step s i : wellShaped (value s) → wellShaped (value (step s i)).
Proof.
  intros Hs. destruct i as [e|document target|]; cbn [step].
  - unfold dispatch. case_bool_decide; [by apply wellShaped_handle|done].
  - destruct (handleClickOutside_cases document target s) as [->|[_ ->]]; [done|].
    by rewrite value_setSearch.
  - rewrite timerFires_unfold. destruct (timer s); [|done]. by case_decide.
Qed.

(** X5: if the host value is absent or has the persisted shape (a string
    name, a number size, a string color, a number strokeWidth, a boolean
    absoluteStrokeWidth and nothing else), then so has the effective value
    after anything the user does: every write is a complete object of that
    shape. *)
Theorem value_always_well_shaped (hv : option (gmap string jsval))
    (inputs : list Input)
    (Hhv : wellShaped (default DEFAULT_ICON_CONFIG hv)) :
  wellShaped (value (run (initialState hv) inputs)).
Proof.
  apply (run_invariant (λ s, wellShaped (value s))); [apply wellShaped_step|].
  exact Hhv.
Qed.

Lemma nameRegistered_handle e s :
  siteOf e ∈ sitesOf (render s) →
  nameRegistered (value s) → nameRegistered (value (handle e s)).
Proof.
  intros Hr (n & Hn & Hreg). unfold nameRegistered.
  handle_cases e; rewrite ?value_setSearch;
    first
      [ by (exists n)
      | change (value (setValue ?v _)) with v ];
    rewrite ?get_insert_ne by done; try by (exists n).
  exists iconName. split.
  - apply get_insert_eq.
  - right. by eapply IconButton_registered.
Qed.

Lemma nameRegistered_step s i :
  nameRegistered (value s) → nameRegistered (value (step s i)).
Proof.
  intros Hs. destruct i as [e|document target|]; cbn [step].
  - unfold dispatch. case_bool_decide; [by apply nameRegistered_handle|done].
  - destruct (handleClickOutside_cases document target s) as [->|[_ ->]]; [done|].
    by rewrite value_setSearch.
  - rewrite timerFires_unfold. destruct (timer s); [|done]. by case_decide.
Qed.

(** X6: if the name of the host value is empty or a registered icon name
    (as it is when the host value is absent), it is so after anything the
    user does: the field itself never stores a name that the registry does
    not have. *)
Theorem name_always_registered (hv : option (gmap string jsval))
    (inputs : list Input)
    (Hhv : nameRegistered (default DEFAULT_ICON_CONFIG hv)) :
  nameRegistered (value (run (initialState hv) inputs)).
Proof.
  apply (run_invariant (λ s, nameRegistered (value s)));
    [apply nameRegistered_step|].
  exact Hhv.
Qed.

(** ** What the store holds *)

Lemma populate_consistent name st :
  storeConsistent st → storeConsistent (populate name st).
Proof.
  intros Hst k c. rewrite populate_lookup.
  pose proof (populate_calls_le name st).
  destruct (iconCache st !! k) as [c'|] eqn:Hk.
  - intros [= <-]. destruct (Hst _ _ Hk) as (? & ? & ?). split_and!; [done|lia|done].
  - case_decide as Hkn; [|done]. destruct Hkn as [-> Hp]. intros [= <-]. cbn.
    split_and!; [done| |done].
    rewrite populate_calls.
    assert (cacheRead st name = None) as -> by by apply cacheRead_None.
    lia.
Qed.

Lemma populate_distinct name st :
  storeConsistent st → storeDistinct st → storeDistinct (populate name st).
Proof.
  intros Hc Hd k1 k2 c1 c2. rewrite !populate_lookup.
  destruct (iconCache st !! k1) as [c1'|] eqn:H1;
    destruct (iconCache st !! k2) as [c2'|] eqn:H2.
  - intros [= <-] [= <-]. by apply Hd.
  - intros [= <-]. case_decide; [|done]. intros [= <-]. cbn.
    destruct (Hc _ _ H1) as (? & ? & ?). lia.
  - case_decide; [|done]. intros [= <-] [= <-]. cbn.
    destruct (Hc _ _ H2) as (? & ? & ?). lia.
  - case_decide as Ha; [|done]. case_decide as Hb; [|done].
    intros _ _ _. by destruct Ha as [-> _], Hb as [-> _].
Qed.

Lemma runOp_consistent op st :
  storeConsistent st ∧ storeDistinct st →
  storeConsistent (runOp st op) ∧ storeDistinct (runOp st op).
Proof.
  destruct op as [name|]; cbn [runOp Icon snd].
  - intros [Hc Hd]. split; [by apply populate_consistent|by apply populate_distinct].
  - unfold preload. generalize popularIcons. intros names. revert st.
    induction names as [|name names IH]; intros st [Hc Hd]; [done|].
    cbn. apply IH.
    split; [by apply populate_consistent|by apply populate_distinct].
Qed.

Lemma runOps_consistent ops st :
  storeConsistent st ∧ storeDistinct st →
  storeConsistent (runOps st ops) ∧ storeDistinct (runOps st ops).
Proof.
  revert st. induction ops as [|op ops IH]; intros st Hst; [done|].
  cbn. by apply IH, runOp_consistent.
Qed.

(** X8: after any renders and preloads since the module was loaded, every
    cache entry was made by [dynamic] from the registry loader of its own
    name and no entry is under a name inherited from [Object.prototype]; a
    resolve of such an inherited name returns the inherited property, a
    resolve of any other name returns a component made from the registry
    loader of that name; and two different names never share a cached
    component. *)
Theorem store_entries_from_registry (ops : list StoreOp) (name : string) :
  (∀ k c, iconCache (runOps emptyStore ops) !! k = Some c →
          loadedFrom c = dynamicIconImports !! k ∧ k ∉ objectPrototypeKeys)
  ∧ (match (Icon name (runOps emptyStore ops)).1 with
     | Some (FromDynamic c) =>
         (name ∉ objectPrototypeKeys)
         ∧ loadedFrom c = dynamicIconImports !! name
     | Some (Inherited k) => k = name ∧ name ∈ objectPrototypeKeys
     | None => False
     end)
  ∧ (∀ k1 k2 c, iconCache (runOps emptyStore ops) !! k1 = Some c →
                iconCache (runOps emptyStore ops) !! k2 = Some c → k1 = k2).
Proof.
  assert (Hempty : storeConsistent (@emptyStore loader) ∧ storeDistinct (@emptyStore loader)).
  { split.
    - intros k c Hk. cbn in Hk. by rewrite lookup_empty in Hk.
    - intros k1 k2 c1 c2 Hk. cbn in Hk. by rewrite lookup_empty in Hk. }
  destruct (runOps_consistent ops _ Hempty) as [Hc Hd].
  split_and!.
  - intros k c Hk. by destruct (Hc _ _ Hk) as (? & ? & ?).
  - pose proof (populate_consistent name _ Hc) as Hc'.
    cbn [Icon fst]. unfold cacheRead.
    destruct (iconCache (populate name (runOps emptyStore ops)) !! name)
      as [c|] eqn:Hk.
    + by destruct (Hc' _ _ Hk) as (? & ? & ?).
    + case_bool_decide as Hp; [done|].
      destruct (populate_own name (runOps emptyStore ops) Hp) as [c Hc''].
      congruence.
  - intros k1 k2 c H1 H2. by eapply Hd.
Qed.

Lemma foldl_populate_lookup names st k :
  is_Some (iconCache (foldl (λ st name, populate name st) st names) !! k)
  ↔ is_Some (iconCache st !! k) ∨ (k ∈ names ∧ k ∉ objectPrototypeKeys).
Proof.
  revert st. induction names as [|name names IH]; intros st; cbn [foldl].
  - rewrite elem_of_nil. split; [by left|by intros [?|[[] _]]].
  - rewrite IH, populate_lookup, elem_of_cons.
    destruct (iconCache st !! k) as [c|] eqn:Hk.
    + split; [by left; eauto|by left; eauto].
    + case_decide as Hkn.
      * destruct Hkn as [-> Hp]. split; [by right; split; [left|]|by left; eauto].
      * split.
        -- intros [[? [=]]|[? ?]]. by right; split; [right|].
        -- intros [[? [=]]|[[->|?] ?]]; [by destruct Hkn|by right].
Qed.

Lemma foldl_populate_cached names st :
  (∀ k, k ∈ names → is_Some (iconCache st !! k)) →
  foldl (λ st name, populate name st) st names = st.
Proof.
  induction names as [|name names IH]; intros Hall; [done|].
  cbn. destruct (Hall name) as [c Hc]; [by left|].
  rewrite (populate_cached _ _ _ Hc). apply IH.
  intros k Hk. apply Hall. by right.
Qed.

Lemma foldl_populate_calls names st :
  (dynamicCalls (foldl (λ st name, populate name st) st names)
   ≤ dynamicCalls st + length names)%nat.
Proof.
  revert st. induction names as [|name names IH]; intros st; cbn; [lia|].
  specialize (IH (populate name st)). pose proof (populate_calls_le name st). lia.
Qed.

Lemma elem_of_popularIcons k :
  k ∈ popularIcons
  ↔ k ∈ ["check"; "x"; "user"; "settings"; "home"; "search"]
    ∧ is_Some (dynamicIconImports !! k).
Proof.
  unfold popularIcons. rewrite !list_elem_of_In, filter_In.
  by rewrite bool_decide_eq_true.
Qed.

(** None of the six popular names is inherited from [Object.prototype]. *)
Lemma popular_not_inherited k :
  k ∈ ["check"; "x"; "user"; "settings"; "home"; "search"] →
  k ∉ objectPrototypeKeys.
Proof.
  rewrite !elem_of_cons, elem_of_nil.
  intros [->|[->|[->|[->|[->|[->|[]]]]]]];
    apply (bool_decide_unpack _); vm_compute; exact I.
Qed.

(** X10: after the preload the cached names are those cached before and
    those of the six popular names that the registry has; a popular name
    that the registry lacks is not added.  The preload calls [dynamic] at
    most six times, and a second preload changes nothing. *)
Theorem preload_adds_registered_popular (st : IconStore loader) (k : string) :
  (is_Some (iconCache (preload st) !! k)
   ↔ is_Some (iconCache st !! k)
     ∨ (k ∈ ["check"; "x"; "user"; "settings"; "home"; "search"]
        ∧ is_Some (dynamicIconImports !! k)))
  ∧ (dynamicCalls st ≤ dynamicCalls (preload st) ≤ dynamicCalls st + 6)%nat
  ∧ preload (preload st) = preload st.
Proof.
  unfold preload. split_and!.
  - rewrite foldl_populate_lookup, elem_of_popularIcons.
    split; (intros [?|Hk]; [by left|right]).
    + by destruct Hk.
    + split; [done|]. apply popular_not_inherited. by destruct Hk.
  - clear k. generalize popularIcons. intros names. revert st.
    induction names as [|name names IH]; intros st; [done|].
    cbn. specialize (IH (populate name st)).
    pose proof (populate_calls_le name st). lia.
  - pose proof (foldl_populate_calls popularIcons st) as Hcalls.
    assert (length popularIcons ≤ 6)%nat as Hlen.
    { unfold popularIcons. etrans; [apply filter_length_le|]. done. }
    lia.
  - apply foldl_populate_cached. intros n Hn.
    apply foldl_populate_lookup. right. split; [done|].
    apply popular_not_inherited. by apply elem_of_popularIcons in Hn as [? _].
Qed.

(** ** How the writers compose *)

Lemma value_handleResetToDefaults s :
  value (handleResetToDefaults s)
  = <["name" := get (value s) "name"]> DEFAULT_ICON_CONFIG.
Proof. reflexivity. Qed.

Lemma value_handleConfigChange k v s :
  value (handleConfigChange k v s) = <[k := v]> (value s).
Proof. reflexivity. Qed.

(** X11: a reset after a reset changes nothing more; a reset after any
    change of a field other than the name gives what the reset alone gives;
    selecting an icon and resetting, in either order, gives the defaults
    with that icon; setting a field twice keeps the second value; and
    setting two different fields gives the same object in either order. *)
Theorem value_writers_compose (s : State) (n : string) (k k' : string)
    (v v' : jsval) :
  value (handleResetToDefaults (handleResetToDefaults s))
  = value (handleResetToDefaults s)
  ∧ (k ≠ "name" →
     value (handleResetToDefaults (handleConfigChange k v s))
     = value (handleResetToDefaults s))
  ∧ value (handleResetToDefaults (handleIconSelect n s))
    = mkConfig n 24 "currentColor" 2 false
  ∧ value (handleIconSelect n (handleResetToDefaults s))
    = mkConfig n 24 "currentColor" 2 false
  ∧ value (handleConfigChange k v' (handleConfigChange k v s))
    = value (handleConfigChange k v' s)
  ∧ (k ≠ k' →
     value (handleConfigChange k v (handleConfigChange k' v' s))
     = value (handleConfigChange k' v' (handleConfigChange k v s))).
Proof.
  rewrite !value_handleResetToDefaults, !value_handleIconSelect,
    !value_handleConfigChange, !value_handleResetToDefaults.
  split_and!.
  - by rewrite get_insert_eq.
  - intros Hk. by rewrite get_insert_ne.
  - rewrite get_insert_eq. apply insert_insert_eq.
  - rewrite insert_insert_eq. apply insert_insert_eq.
  - apply insert_insert_eq.
  - intros Hk. by apply insert_insert_ne.
Qed.

(** ** Keys of the icon grid *)

Lemma lookup_slice_Some {A} (l : list A) (i j k : nat) (x : A) :
  slice l i j !! k = Some x → l !! (i + k)%nat = Some x ∧ (k < j - i)%nat.
Proof.
  unfold slice. intros [Hk Hlt]%lookup_take_Some.
  by rewrite lookup_drop in Hk.
Qed.

(** X13: the names of a page are pairwise different, as React keys have to
    be, the filtered list has no name twice, and no name is on two pages. *)
Theorem paginatedIcons_keys_unique (debounced : string) (p q : nat)
    (name : string) :
  NoDup (filteredIcons debounced)
  ∧ NoDup (paginatedIcons debounced p)
  ∧ (name ∈ paginatedIcons debounced p → name ∈ paginatedIcons debounced q →
     p = q).
Proof.
  assert (Hnd : NoDup (filteredIcons debounced)).
  { eapply sublist_NoDup; [apply allIcons_NoDup|apply filteredIcons_sublist]. }
  split_and!.
  - exact Hnd.
  - eapply sublist_NoDup; [exact Hnd|apply paginatedIcons_sublist].
  - intros [i Hi]%list_elem_of_lookup [j Hj]%list_elem_of_lookup.
    unfold paginatedIcons, ICONS_PER_PAGE in Hi, Hj.
    apply lookup_slice_Some in Hi as [Hi Hilt].
    apply lookup_slice_Some in Hj as [Hj Hjlt].
    pose proof (NoDup_lookup _ _ _ _ Hnd Hi Hj). lia.
Qed.

(** ** The display form of a name *)

Lemma includes_dash_cons c s :
  includes (String c s) "-" = (Ascii.eqb c "-" || includes s "-").
Proof.
  cbn [includes String.prefix].
  destruct (Ascii.ascii_dec "-" c) as [<-|Hne]; [by destruct s|].
  cbn. destruct (Ascii.eqb_spec c "-"%char); [congruence|done].
Qed.

Lemma wordCharToUpperCase_facts c :
  isWordChar c = true →
  wordCharToUpperCase c ≠ "-"%char
  ∧ isWordChar (wordCharToUpperCase c) = true
  ∧ wordCharToUpperCase (wordCharToUpperCase c) = wordCharToUpperCase c
  ∧ asciiLowerChar (wordCharToUpperCase c) = asciiLowerChar c.
Proof.
  destruct c as [[] [] [] [] [] [] [] []]; vm_compute; intros Hw;
    first [discriminate Hw | by split_and!].
Qed.

Lemma dash_not_word : isWordChar "-" = false ∧ isWordChar " " = false.
Proof. by vm_compute. Qed.

Lemma replaceDashes_no_dash s : includes (replaceDashes s) "-" = false.
Proof.
  induction s as [|c s IH]; [done|].
  cbn [replaceDashes]. rewrite includes_dash_cons, IH, orb_false_r.
  destruct (Ascii.eqb_spec c "-"); [done|]. by apply Ascii.eqb_neq.
Qed.

Lemma replaceDashes_id s : includes s "-" = false → replaceDashes s = s.
Proof.
  induction s as [|c s IH]; [done|].
  rewrite includes_dash_cons. intros [Hc Hs]%orb_false_elim.
  cbn [replaceDashes]. by rewrite Hc, IH.
Qed.

Lemma capitalizeWords_no_dash b s :
  includes s "-" = false → includes (capitalizeWords b s) "-" = false.
Proof.
  revert b. induction s as [|c s IH]; intros b; [done|].
  rewrite includes_dash_cons. intros [Hc Hs]%orb_false_elim.
  cbn [capitalizeWords]. rewrite includes_dash_cons, IH, orb_false_r by done.
  destruct (isWordChar c) eqn:Hw, b; cbn [andb negb]; try done.
  apply Ascii.eqb_neq. by apply wordCharToUpperCase_facts.
Qed.

Lemma capitalizeWords_length b s :
  String.length (capitalizeWords b s) = String.length s.
Proof.
  revert b. induction s as [|c s IH]; intros b; [done|].
  cbn. by rewrite IH.
Qed.

Lemma replaceDashes_length s : String.length (replaceDashes s) = String.length s.
Proof. induction s as [|c s IH]; [done|]. cbn. by rewrite IH. Qed.

Lemma capitalizeWords_lower b s :
  asciiToLowerCase (capitalizeWords b s) = asciiToLowerCase s.
Proof.
  revert b. induction s as [|c s IH]; intros b; [done|].
  cbn [capitalizeWords asciiToLowerCase]. rewrite IH. f_equal.
  destruct (isWordChar c) eqn:Hw, b; cbn [andb negb]; try done.
  by apply wordCharToUpperCase_facts.
Qed.

Lemma capitalizeWords_idemp b s :
  capitalizeWords b (capitalizeWords b s) = capitalizeWords b s.
Proof.
  revert b. induction s as [|c s IH]; intros b; [done|].
  cbn [capitalizeWords].
  destruct (isWordChar c) eqn:Hw, b; cbn [andb negb];
    rewrite ?Hw; cbn [andb negb]; rewrite ?IH; try done.
  destruct (wordCharToUpperCase_facts c Hw) as (_ & Hw' & Hup & _).
  by rewrite Hw', Hup, IH.
Qed.

(** X14: the display form of a name has the length of the name and no
    dash, is the name with its dashes turned to spaces up to the case of
    letters, and is its own display form. *)
Theorem displayName_properties (name : string) :
  String.length (displayName name) = String.length name
  ∧ includes (displayName name) "-" = false
  ∧ asciiToLowerCase (displayName name) = asciiToLowerCase (replaceDashes name)
  ∧ displayName (displayName name) = displayName name.
Proof.
  unfold displayName. split_and!.
  - by rewrite capitalizeWords_length, replaceDashes_length.
  - apply capitalizeWords_no_dash, replaceDashes_no_dash.
  - apply capitalizeWords_lower.
  - rewrite (replaceDashes_id (capitalizeWords false (replaceDashes name))).
    + apply capitalizeWords_idemp.
    + apply capitalizeWords_no_dash, replaceDashes_no_dash.
Qed.

(** ** The panel, the picker and the pagination row *)

Lemma handle_showConfig e s :
  e ≠ Click ConfigToggle → e ≠ Click ConfigClose →
  showConfig (handle e s) = showConfig s.
Proof.
  intros Ht Hc. handle_cases e; try done;
    unfold setSearch; by case_decide.
Qed.

Lemma ConfigToggle_rendered s : ConfigToggle ∈ sitesOf (render s).
Proof.
  rewrite sitesOf_render. apply elem_of_app. left.
  apply (bool_decide_unpack _). vm_compute. exact I.
Qed.

(** X9: the configuration panel and the picker do not touch each other:
    only the panel's toggle and close buttons change whether the panel is
    open, neither of them changes whether the picker is open, what is
    searched or which page is shown, and two clicks on the toggle leave
    the panel as it was. *)
Theorem panel_independent_of_picker (s : State) (i : Input) :
  (showConfig (step s i) = showConfig s
   ∨ i = Dom (Click ConfigToggle) ∨ i = Dom (Click ConfigClose))
  ∧ (fieldIsFocused (step s (Dom (Click ConfigToggle))) = fieldIsFocused s
     ∧ search (step s (Dom (Click ConfigToggle))) = search s
     ∧ page (step s (Dom (Click ConfigToggle))) = page s
     ∧ hostValue (step s (Dom (Click ConfigToggle))) = hostValue s)
  ∧ (fieldIsFocused (step s (Dom (Click ConfigClose))) = fieldIsFocused s
     ∧ search (step s (Dom (Click ConfigClose))) = search s
     ∧ page (step s (Dom (Click ConfigClose))) = page s
     ∧ hostValue (step s (Dom (Click ConfigClose))) = hostValue s)
  ∧ showConfig (step s (Dom (Click ConfigToggle))) = negb (showConfig s)
  ∧ showConfig (step (step s (Dom (Click ConfigToggle))) (Dom (Click ConfigToggle)))
    = showConfig s.
Proof.
  assert (Htoggle : ∀ s', step s' (Dom (Click ConfigToggle))
                          = setShowConfig (negb (showConfig s')) s').
  { intros s'. cbn [step]. unfold dispatch. cbn [siteOf].
    by rewrite bool_decide_eq_true_2 by apply ConfigToggle_rendered. }
  split_and!.
  - destruct i as [e|document target|]; cbn [step].
    + destruct (decide (e = Click ConfigToggle)) as [->|Ht]; [by right; left|].
      destruct (decide (e = Click ConfigClose)) as [->|Hc]; [by right; right|].
      left. unfold dispatch. case_bool_decide; [by apply handle_showConfig|done].
    + left.
      destruct (handleClickOutside_cases document target s) as [->|[_ ->]]; [done|].
      unfold setSearch. by case_decide.
    + left. rewrite timerFires_unfold. destruct (timer s); [|done]. by case_decide.
  - by rewrite Htoggle.
  - by rewrite Htoggle.
  - by rewrite Htoggle.
  - by rewrite Htoggle.
  - cbn [step]. unfold dispatch. by case_bool_decide.
  - cbn [step]. unfold dispatch. by case_bool_decide.
  - cbn [step]. unfold dispatch. by case_bool_decide.
  - cbn [step]. unfold dispatch. by case_bool_decide.
  - by rewrite Htoggle.
  - rewrite !Htoggle. cbn. apply negb_involutive.
Qed.

Lemma totalPages_gt_1 debounced :
  (1 < totalPages debounced)%nat
  ↔ (ICONS_PER_PAGE < length (filteredIcons debounced))%nat.
Proof.
  pose proof (Math_ceil_div_spec (length (filteredIcons debounced))
                ICONS_PER_PAGE ltac:(unfold ICONS_PER_PAGE; lia)) as [Hle Hlt].
  fold (totalPages debounced) in Hle, Hlt.
  unfold ICONS_PER_PAGE in *. lia.
Qed.

(** X15: the "Previous" and "Next" buttons can be clicked exactly when the
    picker is open and more than 60 icons match: "Previous" on every page
    but the first, "Next" on every page but the last; with 60 matches or
    fewer there is no page to go to and no click changes the page. *)
Theorem paging_buttons_enabled (s : State) :
  (PrevPage ∈ sitesOf (render s)
   ↔ fieldIsFocused s = true
     ∧ (60 < length (filteredIcons (debouncedSearch s)))%nat
     ∧ page s ≠ 0%nat)
  ∧ (NextPage ∈ sitesOf (render s)
     ↔ fieldIsFocused s = true
       ∧ (60 < length (filteredIcons (debouncedSearch s)))%nat
       ∧ page s ≠ (totalPages (debouncedSearch s) - 1)%nat)
  ∧ ((length (filteredIcons (debouncedSearch s)) ≤ 60)%nat →
     ∀ e, page (dispatch e s) = page s).
Proof.
  pose proof (totalPages_gt_1 (debouncedSearch s)) as Hgt.
  unfold ICONS_PER_PAGE in Hgt.
  split_and!.
  - by rewrite PrevPage_rendered, Hgt.
  - by rewrite NextPage_rendered, Hgt.
  - intros Hle e. unfold dispatch. case_bool_decide as Hr; [|done].
    destruct (decide (e = Click PrevPage)) as [->|Hp];
      [|destruct (decide (e = Click NextPage)) as [->|Hn]].
    + cbn [siteOf] in Hr. apply PrevPage_rendered in Hr. lia.
    + cbn [siteOf] in Hr. apply NextPage_rendered in Hr. lia.
    + by apply handle_page.
Qed.

End Component.

(** ** The component on the sample inputs *)

(** C5: the theorem for the sample registry, the ASCII [toLowerCase], the
    search text "AR" and the name "search". *)
Lemma filteredIcons_case_insensitive_substring_witness :
  asciiToLowerCase "" = ""
  ∧ ("search" ∈ filteredIcons sampleImports asciiToLowerCase "AR"
     ↔ "search" ∈ allIcons sampleImports
       ∧ includes (asciiToLowerCase "search") (asciiToLowerCase "AR") = true)
  ∧ ("search" ∈ filteredIcons sampleImports asciiToLowerCase "AR"
     ↔ "search" ∈ allIcons sampleImports
       ∧ ∃ a b, asciiToLowerCase "search" = a +:+ asciiToLowerCase "AR" +:+ b)
  ∧ filteredIcons sampleImports asciiToLowerCase "AR"
    `sublist_of` allIcons sampleImports
  ∧ filteredIcons sampleImports asciiToLowerCase "" = allIcons sampleImports
  ∧ Sorted str_le (filteredIcons sampleImports asciiToLowerCase "")
  ∧ ("search" ∈ allIcons sampleImports ↔ is_Some (sampleImports !! "search"))
  ∧ ("search" ∈ filteredIcons sampleImports asciiToLowerCase ""
     ↔ is_Some (sampleImports !! "search"))
  ∧ NoDup (allIcons sampleImports)
  ∧ allIcons sampleImports ≡ₚ (map_to_list sampleImports).*1.
Proof.
  split; [reflexivity|].
  apply (filteredIcons_case_insensitive_substring sampleImports asciiToLowerCase
           "AR" "search").
  reflexivity.
Defined.

Example filteredIcons_AR :
  filteredIcons sampleImports asciiToLowerCase "AR"
  = ["alarm-clock"; "archive"; "arrow-down"; "arrow-left"; "arrow-right";
     "arrow-up"; "award"; "bookmark"; "calendar"; "car"; "clipboard";
     "heart"; "search"].
Proof. vm_compute. reflexivity. Qed.

Example paginatedIcons_last_page :
  totalPages sampleImports asciiToLowerCase "" = 2%nat
  ∧ paginatedIcons sampleImports asciiToLowerCase "" 1
    = ["home"; "house-plus"; "image"; "inbox"; "palette"; "rotate-ccw";
       "search"; "settings"; "user"; "x"].
Proof. vm_compute. auto. Qed.

(** The two examples of the specification for the value writers. *)
Example handleIconSelect_home :
  value (handleIconSelect "home"
           (initialState (Some (mkConfig "" 24 "currentColor" 2 false))))
  = mkConfig "home" 24 "currentColor" 2 false.
Proof. vm_compute. reflexivity. Qed.

Example handleResetToDefaults_home :
  value (handleResetToDefaults
           (initialState (Some (mkConfig "home" 64 "#ff0000" 3 true))))
  = mkConfig "home" 24 "currentColor" 2 false.
Proof. vm_compute. reflexivity. Qed.

(** C7 fails on the code: with the configuration panel open and no
    confirmation pending, the panel's own [icon-config-panel__confirm]
    button is rendered, a click on it reaches [handleResetToDefaults], and
    the stored size, color and stroke settings are gone. *)
Theorem panel_confirm_resets_without_confirmation :
  let s := run sampleImports asciiToLowerCase parseNaN parseNaN "Icon" false
             (initialState (Some (mkConfig "home" 64 "#ff0000" 3 true)))
             [Dom (Click ConfigToggle)] in
  showConfig s = true
  ∧ showResetConfirm s = false
  ∧ invokesReset sampleImports asciiToLowerCase "Icon" false s
      (Dom (Click PanelConfirm)) = true
  ∧ hostValue (step sampleImports asciiToLowerCase parseNaN parseNaN "Icon" false
                 s (Dom (Click PanelConfirm)))
    = Some (mkConfig "home" 24 "currentColor" 2 false).
Proof. vm_compute. auto. Qed.

(** C8 fails on the code: with the picker open and "ho" typed, a mousedown
    on the page body, outside the field, finds no element of class
    [icon-picker-modal] or [icon-select-field] in the document and leaves
    the picker open and the search text in place. *)
Theorem outside_click_leaves_picker_open :
  let s := run sampleImports asciiToLowerCase parseNaN parseNaN "Icon" false
             (initialState None)
             [Dom (Click Control); Dom (Change SearchInput "ho" false)] in
  let document := El "body" [] None false
                    [render sampleImports asciiToLowerCase "Icon" false s] in
  fieldIsFocused s = true
  ∧ search s = "ho"
  ∧ querySelector document "icon-picker-modal" = None
  ∧ querySelector document "icon-select-field" = None
  ∧ step sampleImports asciiToLowerCase parseNaN parseNaN "Icon" false
      s (MouseDown document []) = s.
Proof. vm_compute. auto 6. Qed.


(** ** The further properties on the sample inputs *)

(** X2 on the sample registry, on the first of its two pages. *)
Lemma paging_stays_in_range_witness :
  let s := run sampleImports asciiToLowerCase parseNaN parseNaN "Icon" false
             (initialState None) [Dom (Click Control)] in
  fieldIsFocused s = true
  ∧ (page s < totalPages sampleImports asciiToLowerCase (debouncedSearch s))%nat
  ∧ (page (dispatch sampleImports asciiToLowerCase parseNaN parseNaN "Icon" false
             (Click NextPage) s)
     = ((page s + 1)
        `min` (totalPages sampleImports asciiToLowerCase (debouncedSearch s) - 1))%nat
     ∧ page (dispatch sampleImports asciiToLowerCase parseNaN parseNaN "Icon" false
               (Click PrevPage) s) = (page s - 1)%nat
     ∧ (page (dispatch sampleImports asciiToLowerCase parseNaN parseNaN "Icon" false
                (Click NextPage) s)
        < totalPages sampleImports asciiToLowerCase (debouncedSearch s))%nat
     ∧ ((S (page s) < totalPages sampleImports asciiToLowerCase (debouncedSearch s))%nat →
        page (dispatch sampleImports asciiToLowerCase parseNaN parseNaN "Icon" false
                (Click PrevPage)
                (dispatch sampleImports asciiToLowerCase parseNaN parseNaN "Icon" false
                   (Click NextPage) s)) = page s)).
Proof.
  intros s.
  assert (Hopen : fieldIsFocused s = true) by reflexivity.
  assert (Hrange : (page s
            < totalPages sampleImports asciiToLowerCase (debouncedSearch s))%nat)
    by (vm_compute; lia).
  split; [exact Hopen|]. split; [exact Hrange|].
  exact (paging_stays_in_range sampleImports asciiToLowerCase parseNaN parseNaN
           "Icon" false s Hopen Hrange).
Defined.

(** X4 on the sample registry: the picker is opened, then "ho" is typed. *)
Lemma typed_text_is_debounced_witness :
  fieldIsFocused
    (run sampleImports asciiToLowerCase parseNaN parseNaN "Icon" false
       (initialState None) [Dom (Click Control)]) = true
  ∧ search
      (run sampleImports asciiToLowerCase parseNaN parseNaN "Icon" false
         (run sampleImports asciiToLowerCase parseNaN parseNaN "Icon" false
            (initialState None) [Dom (Click Control)])
         [Dom (Change SearchInput "ho" false); Timeout]) = "ho"
  ∧ debouncedSearch
      (run sampleImports asciiToLowerCase parseNaN parseNaN "Icon" false
         (run sampleImports asciiToLowerCase parseNaN parseNaN "Icon" false
            (initialState None) [Dom (Click Control)])
         [Dom (Change SearchInput "ho" false); Timeout]) = "ho"
  ∧ timer
      (run sampleImports asciiToLowerCase parseNaN parseNaN "Icon" false
         (run sampleImports asciiToLowerCase parseNaN parseNaN "Icon" false
            (initialState None) [Dom (Click Control)])
         [Dom (Change SearchInput "ho" false); Timeout]) = None
  ∧ page
      (run sampleImports asciiToLowerCase parseNaN parseNaN "Icon" false
         (run sampleImports asciiToLowerCase parseNaN parseNaN "Icon" false
            (initialState None) [Dom (Click Control)])
         [Dom (Change SearchInput "ho" false); Timeout])
    = if decide
           (debouncedSearch
              (run sampleImports asciiToLowerCase parseNaN parseNaN "Icon" false
                 (initialState None) [Dom (Click Control)]) = "ho")
      then page
             (run sampleImports asciiToLowerCase parseNaN parseNaN "Icon" false
                (initialState None) [Dom (Click Control)])
      else 0%nat.
Proof.
  split; [reflexivity|].
  apply (typed_text_is_debounced sampleImports asciiToLowerCase parseNaN parseNaN
           "Icon" false None [Dom (Click Control)] "ho" false).
  reflexivity.
Defined.

(** X12 on the sample registry: a session of opening, searching, paging,
    opening the panel, asking for a reset and cancelling it writes nothing. *)
Lemma only_writers_write_witness :
  forallb (λ i, negb (writesValue i))
    [Dom (Click Control); Dom (Change SearchInput "ar" false); Timeout;
     Dom (Click NextPage); Dom (Click PickerClose); Dom (Click ConfigToggle);
     Dom (Click PanelRestore); Dom (Click DialogCancel);
     MouseDown (Text "") []] = true
  ∧ hostValue
      (run sampleImports asciiToLowerCase parseNaN parseNaN "Icon" false
         (initialState None)
         [Dom (Click Control); Dom (Change SearchInput "ar" false); Timeout;
          Dom (Click NextPage); Dom (Click PickerClose); Dom (Click ConfigToggle);
          Dom (Click PanelRestore); Dom (Click DialogCancel);
          MouseDown (Text "") []])
    = hostValue (initialState None).
Proof.
  split; [reflexivity|].
  apply (only_writers_write sampleImports asciiToLowerCase parseNaN parseNaN
           "Icon" false).
  reflexivity.
Defined.

(** X5 on the sample registry: a field mounted on an empty value, after an
    icon is chosen, a size is typed that does not parse, and a reset. *)
Lemma value_always_well_shaped_witness :
  wellShaped (default DEFAULT_ICON_CONFIG None)
  ∧ wellShaped
      (value
         (run sampleImports asciiToLowerCase parseNaN parseNaN "Icon" false
            (initialState None)
            [Dom (Click Control); Dom (Click (IconButton "anchor"));
             Dom (Click ConfigToggle); Dom (Change SizeInput "abc" false);
             Dom (Click PanelConfirm)])).
Proof.
  assert (Hhv : wellShaped (default DEFAULT_ICON_CONFIG None))
    by (exists "", 24%float, "currentColor", 2%float, false; reflexivity).
  split; [exact Hhv|].
  exact (value_always_well_shaped sampleImports asciiToLowerCase parseNaN parseNaN
           "Icon" false None _ Hhv).
Defined.

(** X6 on the sample registry, for a stored name "home". *)
Lemma name_always_registered_witness :
  nameRegistered sampleImports
    (default DEFAULT_ICON_CONFIG (Some (mkConfig "home" 24 "currentColor" 2 false)))
  ∧ nameRegistered sampleImports
      (value
         (run sampleImports asciiToLowerCase parseNaN parseNaN "Icon" false
            (initialState (Some (mkConfig "home" 24 "currentColor" 2 false)))
            [Dom (Click Control); Dom (Click (IconButton "anchor"));
             Dom (Click ConfigToggle); Dom (Click PanelConfirm)])).
Proof.
  assert (Hhv : nameRegistered sampleImports
            (default DEFAULT_ICON_CONFIG
               (Some (mkConfig "home" 24 "currentColor" 2 false)))).
  { exists "home". split; [reflexivity|]. right. vm_compute. eauto. }
  split; [exact Hhv|].
  exact (name_always_registered sampleImports asciiToLowerCase parseNaN parseNaN
           "Icon" false _ _ Hhv).
Defined.

Example displayName_arrow_up : displayName "arrow-up" = "Arrow Up".
Proof. reflexivity. Qed.

Example session_value :
  value
    (run sampleImports asciiToLowerCase parseNaN parseNaN "Icon" false
       (initialState None)
       [Dom (Click Control); Dom (Click (IconButton "anchor"));
        Dom (Click ConfigToggle); Dom (Click (SizePreset 4));
        Dom (Click (ColorPreset 4))])
  = mkConfig "anchor" 40 "#ef4444" 2 false.
Proof. vm_compute. reflexivity. Qed.

(** The commit that X1 excepts, on the sample registry: on the second page,
    "anchor" is typed; when the timer callback has run the one match is
    filtered but the page index is still 1, so the grid of that commit is
    empty, and the page reset effect then goes to page 0. *)
Example timerCallback_stale_page :
  let s := run sampleImports asciiToLowerCase parseNaN parseNaN "Icon" false
             (initialState None)
             [Dom (Click Control); Dom (Click NextPage);
              Dom (Change SearchInput "anchor" false)] in
  page (timerCallback s) = 1%nat
  ∧ filteredIcons sampleImports asciiToLowerCase (debouncedSearch (timerCallback s))
    = ["anchor"]
  ∧ paginatedIcons sampleImports asciiToLowerCase
      (debouncedSearch (timerCallback s)) (page (timerCallback s)) = []
  ∧ page (timerFires s) = 0%nat.
Proof. vm_compute. auto. Qed.

(** The catalog of the sample registry. *)
Example allIcons_sample :
  length (allIcons sampleImports) = 70%nat
  ∧ take 5 (allIcons sampleImports)
    = ["activity"; "airplay"; "alarm-clock"; "album"; "anchor"].
Proof. vm_compute. auto. Qed.

(** C10: the theorem for the name "home", from the empty store, with a
    preload and a render of "x" before "home" is resolved again. *)
Lemma iconCache_populated_once_witness :
  ("home" ∉ objectPrototypeKeys)
  ∧ (∃ c, (Icon sampleImports "home" emptyStore).1 = Some (FromDynamic c)
          ∧ iconCache (Icon sampleImports "home" emptyStore).2 !! "home" = Some c)
  ∧ dynamicCalls (Icon sampleImports "home" emptyStore).2
    = match iconCache (@emptyStore string) !! "home" with
      | Some _ => dynamicCalls (@emptyStore string)
      | None => S (dynamicCalls (@emptyStore string))
      end
  ∧ (∀ name',
       Icon sampleImports name'
         (runOps sampleImports (Icon sampleImports name' emptyStore).2
            [Preload; RenderIcon "x"])
       = ((Icon sampleImports name' emptyStore).1,
          runOps sampleImports (Icon sampleImports name' emptyStore).2
            [Preload; RenderIcon "x"]))
  ∧ (∀ k c, iconCache (@emptyStore string) !! k = Some c →
            iconCache (runOps sampleImports emptyStore [Preload; RenderIcon "x"]) !! k
            = Some c)
  ∧ (∀ k c, iconCache (@emptyStore string) !! k = Some c →
            iconCache (preload sampleImports emptyStore) !! k = Some c)
  ∧ dynamicCalls (runOps sampleImports emptyStore [Preload; RenderIcon "x"])
    = size (iconCache (runOps sampleImports emptyStore [Preload; RenderIcon "x"])).
Proof.
  assert (Hown : "home" ∉ objectPrototypeKeys)
    by (apply (bool_decide_unpack _); vm_compute; exact I).
  split; [exact Hown|].
  exact (iconCache_populated_once sampleImports emptyStore "home"
           [Preload; RenderIcon "x"] Hown).
Defined.

(** C10 as stated fails: the first resolve of "constructor" stores nothing
    under that name and calls [dynamic] not at all; what it returns is the
    property that the cache object inherits. *)
Lemma constructor_resolve_stores_nothing :
  Icon sampleImports "constructor" emptyStore
  = (Some (Inherited "constructor"), emptyStore)
  ∧ iconCache (Icon sampleImports "constructor" emptyStore).2 !! "constructor"
    = None
  ∧ dynamicCalls (Icon sampleImports "constructor" emptyStore).2 = 0%nat
  ∧ ¬ (∃ c, (Icon sampleImports "constructor" emptyStore).1 = Some (FromDynamic c)
            ∧ iconCache (Icon sampleImports "constructor" emptyStore).2 !! "constructor"
              = Some c).
Proof.
  assert (HI : Icon sampleImports "constructor" emptyStore
               = (Some (Inherited "constructor"), emptyStore)).
  { apply Icon_inherited; [done|].
    apply (bool_decide_unpack _). vm_compute. exact I. }
  rewrite HI. split_and!; try done.
  intros (c & Hc & _). discriminate Hc.
Qed.
